(** * map-maker.py: the trajectory pipeline, embedded and verified

    The development follows the source file top to bottom:

    - [Re]            the fragment of Python's [re] that the two patterns of
                      the program need, as a backtracking matcher that lists
                      the matches in Python's priority order;
    - [PyFloat]       [float(str)] on the strings the position pattern can
                      capture;
    - [Strptime]      [datetime.strptime] for the one format string of the
                      source;
    - [parse_timestamp], [extract_coordinates], [haversine];
    - [Pandas]        the DataFrame operations [process_data] calls, with the
                      exceptions they raise;
    - [Double]        [haversine] as it is executed, in double precision,
                      with the exceptions of the [math] functions;
    - [process_data], [create_map], [main];
    - [Numpy]         the sorting procedure behind [sort_values];
    - the declarative descriptions of what the two parsers accept, the
      grammars as the specification words them, and sample frames.

    The properties follow, claim by claim.

    Conventions.  A Python [str] is a list of code points below 256
    ([ascii]).  The values of floats are idealised: a parsed coordinate is
    the exact rational its decimal text denotes ([Q]) and the distances and
    speeds are real numbers ([R]).  Whether a computation on floats returns
    or raises is not idealised: it is decided in double precision
    ([Double]), where the functions of the C library are a parameter.  An
    instant is a number of microseconds since 1970-01-01T00:00:00 ([Z]) and
    is taken to lie in the range pandas keeps at nanosecond resolution
    (years 1678 to 2261).  The cells of the input frame are strings. *)

From Stdlib Require Import String Ascii List Bool Arith ZArith QArith Lia.
From Stdlib Require Import Reals Lra Qreals Permutation Sorted Mergesort Orders.
From Stdlib Require Floats.
Import ListNotations.

Set Implicit Arguments.

(** ** Python strings *)

Definition str := list ascii.

Definition s2l (s : string) : str := list_ascii_of_string s.

Definition code (c : ascii) : nat := nat_of_ascii c.

(** [\d] on code points below 256: the ten ASCII digits. *)
Definition is_digit (c : ascii) : bool :=
  (48 <=? code c)%nat && (code c <=? 57)%nat.

(** [\s] of a [str] pattern: [str.isspace] on code points below 256. *)
Definition is_space (c : ascii) : bool :=
  let n := code c in
  ((9 <=? n) && (n <=? 13) || (28 <=? n) && (n <=? 32)
   || (n =? 133) || (n =? 160))%nat.

(** [str.lower] on one code point, ASCII letters only. *)
Definition lower (c : ascii) : ascii :=
  if ((65 <=? code c) && (code c <=? 90))%nat
  then ascii_of_nat (code c + 32) else c.

(** ** A backtracking matcher for the patterns of the program *)

Module Re.

(** The constructs that occur in the position pattern of
    [extract_coordinates] and in the pattern [_strptime] builds for the
    format of [parse_timestamp].  Repetition is only ever applied to a
    character class there. *)
Inductive regex : Type :=
| Eps
| Chr (c : ascii)                 (* a literal character *)
| ChrI (c : ascii)                (* a literal under IGNORECASE, c lower case *)
| Cls (p : ascii -> bool)         (* one character of a class *)
| Star (p : ascii -> bool)        (* greedy [p*] *)
| Seq (r1 r2 : regex)
| Alt (r1 r2 : regex)
| Grp (r : regex).                (* a capturing group *)

Definition Plus (p : ascii -> bool) : regex := Seq (Cls p) (Star p).
Definition Opt (r : regex) : regex := Alt r Eps.

Fixpoint Lit (w : str) : regex :=
  match w with
  | [] => Eps
  | c :: w' => Seq (Chr c) (Lit w')
  end.

Fixpoint LitI (w : str) : regex :=
  match w with
  | [] => Eps
  | c :: w' => Seq (ChrI c) (LitI w')
  end.

(** One way of matching: the text consumed, the groups captured (in the
    order of their opening parentheses) and the text left. *)
Definition hit : Type := (str * list str * str)%type.

Definition one (p : ascii -> bool) (s : str) : list hit :=
  match s with
  | c :: s' => if p c then [([c], [], s')] else []
  | [] => []
  end.

(** Greedy star over a class: the longest run first, then each shorter
    one, the empty run last. *)
Fixpoint star (p : ascii -> bool) (s : str) : list (str * str) :=
  match s with
  | c :: s' =>
      if p c
      then map (fun wr => (c :: fst wr, snd wr)) (star p s') ++ [([], s)]
      else [([], s)]
  | [] => [([], [])]
  end.

(** All the ways [r] matches a prefix of [s], in the order in which a
    backtracking engine tries them. *)
Fixpoint matches (r : regex) (s : str) : list hit :=
  match r with
  | Eps => [([], [], s)]
  | Chr c => one (Ascii.eqb c) s
  | ChrI c => one (fun x => Ascii.eqb (lower x) c) s
  | Cls p => one p s
  | Star p => map (fun wr => (fst wr, [], snd wr)) (star p s)
  | Seq r1 r2 =>
      flat_map
        (fun h1 : hit =>
           let '(w1, g1, s1) := h1 in
           map (fun h2 : hit =>
                  let '(w2, g2, s2) := h2 in (w1 ++ w2, g1 ++ g2, s2))
               (matches r2 s1))
        (matches r1 s)
  | Alt r1 r2 => matches r1 s ++ matches r2 s
  | Grp r =>
      map (fun h : hit => let '(w, g, s') := h in (w, w :: g, s'))
          (matches r s)
  end.

(** [re.match]: the first match at the start of the string, or [None]. *)
Definition re_match (r : regex) (s : str) : option hit :=
  hd_error (matches r s).

End Re.

(** ** [float(str)] *)

Module PyFloat.

Definition digit_val (c : ascii) : Z := Z.of_nat (code c) - 48.

(** Value of a run of digits read after the prefix whose value is [acc]. *)
Fixpoint digits_val (acc : Z) (w : str) : Z :=
  match w with
  | [] => acc
  | c :: w' => digits_val (10 * acc + digit_val c) w'
  end.

(** Splits off the longest leading run of digits. *)
Fixpoint span_digits (w : str) : str * str :=
  match w with
  | c :: w' =>
      if is_digit c
      then let '(d, r) := span_digits w' in (c :: d, r)
      else ([], w)
  | [] => ([], [])
  end.

Definition pow10 (n : nat) : positive := Pos.pow 10 (Pos.of_nat n).

Definition scale (n : nat) : positive :=
  match n with O => 1%positive | _ => pow10 n end.

(** An unsigned decimal: digits, optionally a point and more digits, at
    least one digit in all.  The value is [ip.fp], exactly. *)
Definition unsigned_decimal (w : str) : option Q :=
  let '(ip, r) := span_digits w in
  match r with
  | [] =>
      match ip with
      | [] => None
      | _ => Some (digits_val 0 ip # 1)
      end
  | c :: r' =>
      if Ascii.eqb c "."
      then
        let '(fp, r'') := span_digits r' in
        match r'', (ip ++ fp)%list with
        | [], _ :: _ => Some (digits_val 0 (ip ++ fp) # scale (length fp))
        | _, _ => None
        end
      else None
  end.

(** [float(w)] for a [w] made of the characters [-], [.] and digits, the
    only ones the position pattern captures: an optional minus sign and an
    unsigned decimal.  Any other text gives [None] ([ValueError]). *)
Definition float (w : str) : option Q :=
  match w with
  | c :: w' =>
      if Ascii.eqb c "-"
      then option_map Qopp (unsigned_decimal w')
      else unsigned_decimal w
  | [] => None
  end.

End PyFloat.

(** ** [extract_coordinates] *)

Import Re.

(** [[-\d.]] *)
Definition num_char (c : ascii) : bool :=
  Ascii.eqb c "-" || is_digit c || Ascii.eqb c ".".

(** [POINT\s*\(\s*([-\d.]+)\s+([-\d.]+)\s*\)] *)
Definition position_re : regex :=
  Seq (Lit (s2l "POINT"))
 (Seq (Star is_space)
 (Seq (Chr "(")
 (Seq (Star is_space)
 (Seq (Grp (Plus num_char))
 (Seq (Plus is_space)
 (Seq (Grp (Plus num_char))
 (Seq (Star is_space)
      (Chr ")")))))))).

(** The value returned is the Python list [[lat, lon]]; it is kept as a
    pair.  [None] stands for both ways of failing (no match, or a group that
    [float] rejects): the [except Exception] clause turns either into the
    return value [None]. *)
Definition extract_coordinates_l (position_str : str) : option (Q * Q) :=
  match re_match position_re position_str with
  | Some (_, [g1; g2], _) =>
      match PyFloat.float g1, PyFloat.float g2 with
      | Some lon, Some lat => Some (lat, lon)
      | _, _ => None
      end
  | _ => None
  end.

Definition extract_coordinates (position_str : string) : option (Q * Q) :=
  extract_coordinates_l (s2l position_str).

(** ** [datetime.strptime(timestamp_str, '%b %d, %Y @ %H:%M:%S.%f')] *)

Module Strptime.

Local Open Scope Z_scope.

(** A naive [datetime.datetime]. *)
Record datetime : Type := mk_datetime {
  year : Z; month : Z; day : Z;
  hour : Z; minute : Z; second : Z; microsecond : Z
}.

Definition in_range (lo hi : string) (c : ascii) : bool :=
  match s2l lo, s2l hi with
  | [a], [b] => ((code a <=? code c) && (code c <=? code b))%nat
  | _, _ => false
  end.

(** [calendar.month_abbr[1:]], lower case, as [LocaleTime] keeps them (C
    or English locale). *)
Definition a_month : list string :=
  ["jan"; "feb"; "mar"; "apr"; "may"; "jun";
   "jul"; "aug"; "sep"; "oct"; "nov"; "dec"]%string.

(** [__seqToRE]: the names joined by [|]; the pattern is compiled with
    [IGNORECASE]. *)
Definition re_b : regex :=
  Grp (fold_right (fun n r => Alt (LitI (s2l n)) r) (LitI (s2l "dec"))
                  (removelast a_month)).

(** [(?P<d>3[0-1]|[1-2]\d|0[1-9]|[1-9]| [1-9])] *)
Definition re_d : regex :=
  Grp (Alt (Seq (Chr "3") (Cls (in_range "0" "1")))
      (Alt (Seq (Cls (in_range "1" "2")) (Cls is_digit))
      (Alt (Seq (Chr "0") (Cls (in_range "1" "9")))
      (Alt (Cls (in_range "1" "9"))
           (Seq (Chr " ") (Cls (in_range "1" "9"))))))).

(** [(?P<Y>\d\d\d\d)] *)
Definition re_Y : regex :=
  Grp (Seq (Cls is_digit) (Seq (Cls is_digit)
      (Seq (Cls is_digit) (Cls is_digit)))).

(** [(?P<H>2[0-3]|[0-1]\d|\d)] *)
Definition re_H : regex :=
  Grp (Alt (Seq (Chr "2") (Cls (in_range "0" "3")))
      (Alt (Seq (Cls (in_range "0" "1")) (Cls is_digit))
           (Cls is_digit))).

(** [(?P<M>[0-5]\d|\d)] *)
Definition re_M : regex :=
  Grp (Alt (Seq (Cls (in_range "0" "5")) (Cls is_digit)) (Cls is_digit)).

(** [(?P<S>6[0-1]|[0-5]\d|\d)] *)
Definition re_S : regex :=
  Grp (Alt (Seq (Chr "6") (Cls (in_range "0" "1")))
      (Alt (Seq (Cls (in_range "0" "5")) (Cls is_digit))
           (Cls is_digit))).

(** [(?P<f>[0-9]{1,6})] *)
Definition re_f : regex :=
  let d := Cls (in_range "0" "9") in
  Grp (Seq d (Opt (Seq d (Opt (Seq d (Opt (Seq d (Opt (Seq d (Opt d)))))))))).

(** [TimeRE.pattern]: every run of white space of the format becomes
    [\s+], every directive its group, the rest is literal. *)
Definition format_re : regex :=
  Seq re_b (Seq (Plus is_space)
 (Seq re_d (Seq (Chr ",") (Seq (Plus is_space)
 (Seq re_Y (Seq (Plus is_space) (Seq (Chr "@") (Seq (Plus is_space)
 (Seq re_H (Seq (Chr ":")
 (Seq re_M (Seq (Chr ":")
 (Seq re_S (Seq (Chr ".")
      re_f)))))))))))))).

(** [int(w)] on a group of digits, possibly after blanks. *)
Fixpoint py_int (w : str) : Z :=
  match w with
  | c :: w' => if is_space c then py_int w' else PyFloat.digits_val 0 w
  | [] => 0
  end.

(** [a_month.index(w.lower())], counted from 1 since the list of the
    library has a dummy first entry. *)
Fixpoint index_from (n : Z) (names : list string) (w : str) : Z :=
  match names with
  | [] => 0
  | x :: names' =>
      if list_eq_dec ascii_dec (s2l x) w then n
      else index_from (n + 1) names' w
  end.

Definition month_index (w : str) : Z := index_from 1 a_month (map lower w).

(** [s += "0" * (6 - len(s)); int(s)] *)
Definition fraction (w : str) : Z :=
  PyFloat.digits_val 0 (w ++ repeat "0"%char (6 - length w)%nat).

Definition is_leap (y : Z) : bool :=
  (y mod 4 =? 0) && (negb (y mod 100 =? 0) || (y mod 400 =? 0)).

Definition days_in_month (y m : Z) : Z :=
  if (m =? 2) && is_leap y then 29
  else nth (Z.to_nat m) [0; 31; 28; 31; 30; 31; 30; 31; 31; 30; 31; 30; 31] 0.

Definition days_before_month (y m : Z) : Z :=
  nth (Z.to_nat m) [0; 0; 31; 59; 90; 120; 151; 181; 212; 243; 273; 304; 334] 0
  + (if (2 <? m) && is_leap y then 1 else 0).

Definition days_before_year (y : Z) : Z :=
  let y' := y - 1 in y' * 365 + y' / 4 - y' / 100 + y' / 400.

(** [date.toordinal] *)
Definition toordinal (y m d : Z) : Z :=
  days_before_year y + days_before_month y m + d.

(** The checks of the [datetime] constructor ([ValueError] otherwise). *)
Definition valid_fields (dt : datetime) : bool :=
  (1 <=? year dt) && (year dt <=? 9999)
  && (1 <=? month dt) && (month dt <=? 12)
  && (1 <=? day dt) && (day dt <=? days_in_month (year dt) (month dt))
  && (0 <=? hour dt) && (hour dt <=? 23)
  && (0 <=? minute dt) && (minute dt <=? 59)
  && (0 <=? second dt) && (second dt <=? 59)
  && (0 <=? microsecond dt) && (microsecond dt <=? 999999).

(** [_strptime_datetime]: match, require that the match ends the string,
    convert the groups, build the [datetime].  [None] is [ValueError]. *)
Definition strptime (data_string : str) : option datetime :=
  match re_match format_re data_string with
  | Some (_, [gb; gd; gY; gH; gM; gS; gf], []) =>
      let dt := mk_datetime (py_int gY) (month_index gb) (py_int gd)
                            (py_int gH) (py_int gM) (py_int gS)
                            (fraction gf) in
      if valid_fields dt then Some dt else None
  | _ => None
  end.

(** Microseconds from 1970-01-01T00:00:00 to [dt]: the value pandas keeps
    (at nanosecond resolution) for the instant, and the order of naive
    datetimes. *)
Definition instant (dt : datetime) : Z :=
  (((toordinal (year dt) (month dt) (day dt) - 719163) * 24 + hour dt) * 60
     + minute dt) * 60 * 1000000
  + second dt * 1000000 + microsecond dt.

End Strptime.

Export Strptime(datetime, mk_datetime, year, month, day, hour, minute, second,
                microsecond, instant).

(** ** [parse_timestamp] *)

(** [None] is the value returned from the [except ValueError] clause. *)
Definition parse_timestamp (timestamp_str : string) : option datetime :=
  Strptime.strptime (s2l timestamp_str).

(** ** [haversine] *)

Section Geodesy.

Local Open Scope R_scope.

(** [math.radians] *)
Definition radians (x : R) : R := x * (PI / 180).

(** [math.atan2(y, x)]: the angle of the point [(x, y)], in (-pi, pi]. *)
Definition atan2 (y x : R) : R :=
  match total_order_T x 0 with
  | inright _ => atan (y / x)
  | inleft (left _) =>
      if Rle_dec 0 y then atan (y / x) + PI else atan (y / x) - PI
  | inleft (right _) =>
      match total_order_T y 0 with
      | inright _ => PI / 2
      | inleft (left _) => - (PI / 2)
      | inleft (right _) => 0
      end
  end.

(** The value of [haversine] in exact arithmetic.  Over the real numbers
    [0 <= a <= 1] (lemma [haversine_a_bounds] below), so both square roots
    are defined; in double precision [a] can exceed 1 and [math.sqrt]
    raises: see [Double.haversine]. *)
Definition haversine (lat1 lon1 lat2 lon2 : R) : R :=
  let R_ := 6371 in
  let lat1_rad := radians lat1 in
  let lon1_rad := radians lon1 in
  let lat2_rad := radians lat2 in
  let lon2_rad := radians lon2 in
  let dlat := lat2_rad - lat1_rad in
  let dlon := lon2_rad - lon1_rad in
  let a := (sin (dlat / 2)) ^ 2
           + cos lat1_rad * cos lat2_rad * (sin (dlon / 2)) ^ 2 in
  let c := 2 * atan2 (sqrt a) (sqrt (1 - a)) in
  let distance := R_ * c in
  distance.

End Geodesy.

(** ** The DataFrame operations used by [process_data] *)

Module Pandas.

(** The exceptions the pandas calls and the [math] functions of
    [process_data] raise. *)
Inductive exn : Type :=
| TypeError        (* unhashable type: 'list' *)
| AttributeError   (* Can only use .dt accessor with datetimelike values *)
| ValueError       (* math domain error *)
| OverflowError.   (* math range error *)

Inductive result (A : Type) : Type :=
| Ok (a : A)
| Raise (e : exn).

Arguments Ok {A} a.
Arguments Raise {A} e.

Definition bind {A B} (m : result A) (k : A -> result B) : result B :=
  match m with
  | Ok a => k a
  | Raise e => Raise e
  end.

(** [df.dropna(subset=[c])] for a frame given as its rows paired with
    column [c], where [None] is the missing value ([None], [NaT]). *)
Fixpoint dropna {A B} (df : list (A * option B)) : list (A * B) :=
  match df with
  | [] => []
  | (r, Some v) :: df' => (r, v) :: dropna df'
  | (_, None) :: df' => dropna df'
  end.


(** The dtype of the column [Series.apply] builds from datetimes and
    [None]: [datetime64[ns]] as soon as one datetime is there, [object]
    for a column of [None] only and for an empty column.  The datetimes
    are taken to be instants of [datetime64[ns]]: pandas before version 3
    leaves a column with a datetime outside that range as [object]. *)
Inductive dtype : Type := datetime64 | object.

Definition infer_dtype {A} (col : list (option A)) : dtype :=
  if existsb (fun v => match v with Some _ => true | None => false end) col
  then datetime64 else object.

(** [s.shift(1)]: every value moves down one row, the first row gets the
    missing value, the length is kept. *)
Definition shift {A} (col : list A) : list (option A) :=
  firstn (length col) (None :: map Some col).

(** [df.apply(f, axis=1)]: the column of the values of [f] on the rows,
    computed row by row; an exception of [f] ends the call.
    On a frame without rows pandas (1.3 and later) calls [f] once, on a row
    of missing values, to learn whether it returns a scalar; the two
    functions [process_data] applies do (they return [0.0] and
    ["nan km/h"] there), and the result is an empty column. *)
Fixpoint apply_axis1 {A B} (f : A -> result B) (df : list A)
  : result (list B) :=
  match df with
  | [] => Ok []
  | row :: df' =>
      bind (f row) (fun v =>
      bind (apply_axis1 f df') (fun vs => Ok (v :: vs)))
  end.

(** [(s1 - s2).dt.total_seconds()] needs a datetime-like column: on an
    [object] column the [.dt] accessor raises [AttributeError]. *)
Definition dt_accessor {A} (d : dtype) (col : list A) : result (list A) :=
  match d with
  | datetime64 => Ok col
  | object => Raise AttributeError
  end.

End Pandas.

Import Pandas.

Notation "x <- m ;; k" := (bind m (fun x => k))
  (at level 61, m at next level, right associativity).

(** ** [haversine] in double precision *)

Module Double.

Import Floats.

Local Open Scope float_scope.

Definition float : Set := PrimFloat.float.

(** [float(text)]: the double nearest to the number the text denotes
    (ties to even), infinite beyond the range of the doubles. *)
Definition of_Z (n : Z) : SpecFloat.spec_float :=
  match n with
  | Z0 => SpecFloat.S754_zero false
  | Zpos p => SpecFloat.S754_finite false p 0
  | Zneg p => SpecFloat.S754_finite true p 0
  end.

Definition double (q : Q) : float :=
  SF2Prim (SpecFloat.SFdiv 53 1024 (of_Z (Qnum q)) (of_Z (Zpos (Qden q)))).

(** The functions of the C library behind [math.sin], [math.cos],
    [math.atan2] and the operator [**]: code outside the repository,
    taken as a parameter. *)
Class Libm : Type := {
  libm_sin : float -> float;
  libm_cos : float -> float;
  libm_atan2 : float -> float -> float;
  libm_pow : float -> float -> float
}.

Section Math.

Context {libm : Libm}.

(** [math_1] of [mathmodule.c], for functions that cannot overflow: a NaN
    that does not come from a NaN, or an infinity that comes from a finite
    argument, is a domain error. *)
Definition math_1 (func : float -> float) (x : float) : result float :=
  let r := func x in
  if is_nan r && negb (is_nan x) then Raise ValueError
  else if is_infinity r && is_finite x then Raise ValueError
  else Ok r.

(** [math_2] of [mathmodule.c]. *)
Definition math_2 (func : float -> float -> float) (x y : float)
  : result float :=
  let r := func x y in
  if is_nan r && negb (is_nan x) && negb (is_nan y) then Raise ValueError
  else if is_infinity r && is_finite x && is_finite y
       then Raise OverflowError
  else Ok r.

Definition sin : float -> result float := math_1 libm_sin.
Definition cos : float -> result float := math_1 libm_cos.
Definition sqrt : float -> result float := math_1 PrimFloat.sqrt.
Definition atan2 : float -> float -> result float := math_2 libm_atan2.

(** [math.radians]: the product with the constant [pi / 180]. *)
Definition degToRad : float := 0x1.921fb54442d18p+1 / 180.

Definition radians (x : float) : float := x * degToRad.

(** [v ** 2] ([float_pow] of [floatobject.c] with the exponent 2): the
    special cases are settled first, the C library is called on the
    absolute value, and an infinite result is a range error. *)
Definition square (v : float) : result float :=
  if is_nan v then Ok v
  else if is_infinity v then Ok infinity
  else if v =? 0 then Ok 0
  else if abs v =? 1 then Ok 1
  else
    let ix := libm_pow (abs v) 2 in
    if is_infinity ix then Raise OverflowError else Ok ix.

(** Lines 50-77, operation by operation, each rounded to a double. *)
Definition haversine (lat1 lon1 lat2 lon2 : float) : result float :=
  let R := 6371 in
  let lat1_rad := radians lat1 in
  let lon1_rad := radians lon1 in
  let lat2_rad := radians lat2 in
  let lon2_rad := radians lon2 in
  let dlat := lat2_rad - lat1_rad in
  let dlon := lon2_rad - lon1_rad in
  s1 <- sin (dlat / 2) ;;
  p1 <- square s1 ;;
  c1 <- cos lat1_rad ;;
  c2 <- cos lat2_rad ;;
  s2 <- sin (dlon / 2) ;;
  p2 <- square s2 ;;
  let a := p1 + c1 * c2 * p2 in
  root_a <- sqrt a ;;
  root_1_a <- sqrt (1 - a) ;;
  angle <- atan2 root_a root_1_a ;;
  let c := 2 * angle in
  let distance := R * c in
  Ok distance.

End Math.

(** *** Values of the C library *)

(** What the C library returns at the arguments that
    [haversine(-82, -179, 82, 1)] passes to it: the sine and the cosine of
    82 degrees and the square of that sine, each the double nearest to the
    exact value, and 1 for the sine of the double nearest to [pi / 2]. *)
Definition at_82_degrees (libm : Libm) : Prop :=
  libm_sin 0x1.6e6127ff9d971p+0 = 0x1.fb046a930947ap-1
  /\ libm_cos 0x1.6e6127ff9d971p+0 = 0x1.1d06c968d9e1ap-3
  /\ libm_cos (-0x1.6e6127ff9d971p+0) = 0x1.1d06c968d9e1ap-3
  /\ libm_sin 0x1.921fb54442d18p+0 = 1
  /\ libm_pow 0x1.fb046a930947ap-1 2 = 0x1.f6153f1af3dc1p-1.

Definition lookup (table : list (float * float)) (x : float) : float :=
  match find (fun entry => fst entry =? x) table with
  | Some entry => snd entry
  | None => nan
  end.

Definition lookup2 (table : list (float * float * float)) (x y : float)
  : float :=
  match find (fun entry => (fst (fst entry) =? x) && (snd (fst entry) =? y))
             table with
  | Some entry => snd entry
  | None => nan
  end.

(** The values glibc 2.36 (x86-64) returns at the arguments that occur
    in the sample frames of this file.  At every other argument the
    result is NaN here, which the wrappers above turn into an exception:
    the instance says nothing about other frames. *)
Definition glibc : Libm := {|
  libm_sin :=
    lookup [(0, 0);
            (0x1.6e05a695f8p-14, 0x1.6e05a68e2cb05p-14);
            (0x1.6e05a695f4p-14, 0x1.6e05a68e28b05p-14);
            (0x1.6e6127ff9d971p+0, 0x1.fb046a930947ap-1);
            (0x1.921fb54442d18p+0, 1)];
  libm_cos :=
    lookup [(0, 1);
            (0x1.518f4b899b294p-1, 0x1.94b2617b74a5ep-1);
            (0x1.51a62be40488cp-1, 0x1.94a45db4a6276p-1);
            (0x1.6e6127ff9d971p+0, 0x1.1d06c968d9e1ap-3);
            (-0x1.6e6127ff9d971p+0, 0x1.1d06c968d9e1ap-3)];
  libm_atan2 :=
    lookup2 [(0, 1, 0);
             (1, 0, 0x1.921fb54442d18p+0);
             (0x1.d28b0c1d5648ap-14, 0x1.ffffffcadc17cp-1,
              0x1.d28b0c2d7a524p-14)];
  libm_pow :=
    fun x y =>
      if y =? 2
      then lookup [(0x1.6e05a68e2cb05p-14, 0x1.05aa142f3ad95p-27);
                   (0x1.6e05a68e28b05p-14, 0x1.05aa142f35213p-27);
                   (0x1.fb046a930947ap-1, 0x1.f6153f1af3dc1p-1)] x
      else nan
|}.

End Double.

(** ** Rows *)

(** A row of the input frame: the four columns the program reads.  Every
    cell is a string; a frame with a missing or a numeric cell is outside
    this model. *)
Record RawRow : Type := mk_raw {
  timestamp : string;
  position : string;
  country_code : string;
  route_id : string
}.

(** A row after both parsers succeeded (lines 81-86). *)
Record ParsedRow : Type := mk_parsed {
  raw : RawRow;
  parsed_timestamp : datetime;
  coords : Q * Q          (* the Python list [lat, lon] *)
}.

Definition lat (r : ParsedRow) : Q := fst (coords r).
Definition lon (r : ParsedRow) : Q := snd (coords r).

(** The sort key. *)
Definition ts (r : ParsedRow) : Z := instant (parsed_timestamp r).


(** *** [drop_duplicates] *)

(** The cells of a row as Python values, for hashing and comparison. *)
Inductive cell : Type :=
| c_str (s : string)
| c_timestamp (t : datetime)
| c_list (l : list Q).

Definition cells (r : ParsedRow) : list cell :=
  [c_str (timestamp (raw r)); c_str (position (raw r));
   c_str (country_code (raw r)); c_str (route_id (raw r));
   c_timestamp (parsed_timestamp r); c_list [lat r; lon r]].

(** A Python list has no hash. *)
Definition hashable (c : cell) : bool :=
  match c with
  | c_list _ => false
  | _ => true
  end.

Definition cell_eqb (a b : cell) : bool :=
  match a, b with
  | c_str x, c_str y => String.eqb x y
  | c_timestamp x, c_timestamp y => (instant x =? instant y)%Z
  | c_list x, c_list y =>
      (length x =? length y)%nat
      && forallb (fun p => Qeq_bool (fst p) (snd p)) (combine x y)
  | _, _ => false
  end.

Definition row_eqb (a b : ParsedRow) : bool :=
  forallb (fun p => cell_eqb (fst p) (snd p)) (combine (cells a) (cells b)).

(** Keeps the first of the rows that are equal. *)
Fixpoint keep_first (seen df : list ParsedRow) : list ParsedRow :=
  match df with
  | [] => []
  | r :: df' =>
      if existsb (row_eqb r) seen then keep_first seen df'
      else r :: keep_first (r :: seen) df'
  end.

(** [df.drop_duplicates()]: [DataFrame.duplicated] returns at once on an
    empty frame and otherwise hashes the cells of every column; a cell
    without a hash raises [TypeError]. *)
Definition drop_duplicates (df : list ParsedRow) : result (list ParsedRow) :=
  match df with
  | [] => Ok []
  | _ =>
      if forallb (fun r => forallb hashable (cells r)) df
      then Ok (keep_first [] df)
      else Raise TypeError
  end.

(** *** [sort_values] *)

(** [df.sort_values('parsed_timestamp')] is called with the default
    [kind='quicksort'].  What pandas promises for it is an ascending
    rearrangement of the rows; only [mergesort] and [stable] are documented
    as stable.  The pipeline is stated over any sorting procedure with that
    contract; the procedure the program runs is [numpy_quicksort] below. *)
Class SortValues : Type := {
  sort_values : list ParsedRow -> list ParsedRow;
  sort_values_perm : forall df, Permutation df (sort_values df);
  sort_values_sorted :
    forall df, Sorted (fun a b => (ts a <= ts b)%Z) (sort_values df)
}.

(** ** [process_data] *)

(** Number formatting for [f"{speed:.2f} km/h"]. *)
Module Fmt.

Local Open Scope R_scope.

(** The integer nearest to [x], ties to the even one. *)
Definition round_half_even (x : R) : Z :=
  let f := Int_part x in
  let d := x - IZR f in
  if Rlt_dec d (1 / 2) then f
  else if Rlt_dec (1 / 2) d then (f + 1)%Z
  else if Z.even f then f else (f + 1)%Z.

Definition digit (n : Z) : ascii := ascii_of_nat (48 + Z.to_nat n).

(** The decimal digits of [n >= 0]; [fuel] bounds their number. *)
Fixpoint digits (fuel : nat) (n : Z) (acc : str) : str :=
  match fuel with
  | O => acc
  | S fuel' =>
      let acc' := digit (n mod 10) :: acc in
      if (n <? 10)%Z then acc' else digits fuel' (n / 10) acc'
  end.

Definition string_of_Z (n : Z) : str :=
  digits (S (Z.to_nat (Z.log2 n))) n [].

(** [hundredths] is the value times 100, rounded, without its sign. *)
Definition fixed2 (negative : bool) (hundredths : Z) : string :=
  string_of_list_ascii
    ((if negative then ["-"%char] else [])
       ++ string_of_Z (hundredths / 100)
       ++ ["."%char; digit (hundredths / 10 mod 10);
           digit (hundredths mod 10)]).

(** [f"{x:.2f}"] *)
Definition format_2f (x : R) : string :=
  fixed2 (if Rlt_dec x 0 then true else false)
         (Z.abs (round_half_even (x * 100))).

End Fmt.

(** The frame between lines 95 and 106: the parsed row and the columns
    added for the computation.  [None] is [NaN] or [NaT]. *)
Record Row : Type := mk_row {
  base : ParsedRow;
  sequence : Z;
  prev_lat : option Q;
  prev_lon : option Q;
  prev_time : option datetime;
  time_diff_hours : option R
}.

(** A row of the frame [process_data] returns (the helper columns are
    dropped on line 130). *)
Record TrajectoryPoint : Type := mk_point {
  point : ParsedRow;
  point_sequence : Z;
  distance_km : R;
  avg_speed_kmh : string
}.

Section Process.

Local Open Scope R_scope.

(** [(t - prev).total_seconds() / 3600] *)
Definition hours_between (t prev : datetime) : R :=
  IZR (instant t - instant prev) / 1000000 / 3600.

Context {libm : Double.Libm}.

(** A call of [haversine]: whether it returns is decided by the
    computation in doubles; the value returned is idealised to the exact
    one. *)
Definition haversine_call (lat1 lon1 lat2 lon2 : Q) : result R :=
  d <- Double.haversine (Double.double lat1) (Double.double lon1)
                        (Double.double lat2) (Double.double lon2) ;;
  Ok (haversine (Q2R lat1) (Q2R lon1) (Q2R lat2) (Q2R lon2)).

(** [pd.isnull] holds of the missing value, [None] here. *)
Definition calculate_distance (row : Row) : result R :=
  match prev_lat row, prev_lon row with
  | Some lat1, Some lon1 =>
      let '(lat2, lon2) := coords (base row) in
      haversine_call lat1 lon1 lat2 lon2
  | _, _ => Ok 0     (* No predecessor *)
  end.

(** The row as [calculate_avg_speed] sees it: the columns above and
    [distance_km].  A comparison with [NaN] is false, and a speed
    computed from [NaN] prints as [nan]. *)
Definition calculate_avg_speed (row : Row) (distance_km : R) : string :=
  if (sequence row =? 1)%Z then "N/A"
  else
    match time_diff_hours row with
    | Some h =>
        if Rle_dec h 0 then "N/A"
        else
          let speed := distance_km / h in
          (Fmt.format_2f speed ++ " km/h")%string
    | None => "nan km/h"
    end.

Context {sorter : SortValues}.

(** Lines 81-86: both parsers, each followed by [dropna]. *)
Definition with_timestamps (df : list RawRow)
  : list (RawRow * option datetime) :=
  combine df (map (fun r => parse_timestamp (timestamp r)) df).

Definition with_coords (df : list (RawRow * datetime))
  : list ((RawRow * datetime) * option (Q * Q)) :=
  combine df (map (fun r => extract_coordinates (position (fst r))) df).

Definition parsed_rows (df : list RawRow) : list ParsedRow :=
  map (fun r => mk_parsed (fst (fst r)) (snd (fst r)) (snd r))
      (dropna (with_coords (dropna (with_timestamps df)))).

(** Line 106: [(df['parsed_timestamp'] - df['prev_time'])
    .dt.total_seconds() / 3600]. *)
Definition time_diff (d : dtype) (t : list datetime)
           (prev : list (option datetime)) : result (list (option R)) :=
  diff <- dt_accessor d (combine t prev) ;;
  Ok (map (fun p => option_map (hours_between (fst p)) (snd p)) diff).

(** Lines 95-106: [sequence], the shifted columns and the time
    difference. *)
Definition add_columns (d : dtype) (df : list ParsedRow)
  : result (list Row) :=
  let sequence := map (fun i => (Z.of_nat i + 1)%Z) (seq 0 (length df)) in
  let prev_lat := shift (map lat df) in
  let prev_lon := shift (map lon df) in
  let prev_time := shift (map parsed_timestamp df) in
  time_diff_hours <- time_diff d (map parsed_timestamp df) prev_time ;;
  Ok (map (fun c =>
             let '(r, s, pla, plo, pt, td) := c in
             mk_row r s pla plo pt td)
          (combine (combine (combine (combine (combine
             df sequence) prev_lat) prev_lon) prev_time) time_diff_hours)).

(** Lines 79-132.  [ts_dtype] is the dtype the [parsed_timestamp] column
    gets when it is built on line 81; [dropna] keeps it, and line 106
    depends on it.  An exception of [haversine] on line 116 is not
    caught. *)
Definition process_data (df : list RawRow) (remove_duplicates : bool)
  : result (list TrajectoryPoint) :=
  let ts_dtype :=
    infer_dtype (map (fun r => parse_timestamp (timestamp r)) df) in
  let df := parsed_rows df in
  df <- (if remove_duplicates then drop_duplicates df else Ok df) ;;
  let df := sort_values df in
  df <- add_columns ts_dtype df ;;
  distance_km <- apply_axis1 calculate_distance df ;;
  avg_speed_kmh <-
    apply_axis1 (fun rd => Ok (calculate_avg_speed (fst rd) (snd rd)))
                (combine df distance_km) ;;
  Ok (map (fun c =>
             let '(r, d, v) := c in
             mk_point (base r) (sequence r) d v)
          (combine (combine df distance_km) avg_speed_kmh)).

(** ** [create_map] and [main] *)

(** What [create_map] does, as far as the pipeline is concerned: it
    prints that there is nothing to plot and returns, or it renders one
    marker per point and saves the map. *)
Inductive map_outcome : Type :=
| NoDataToPlot                      (* "No data available to plot." *)
| MapSaved (markers : list Z).      (* the sequence numbers drawn *)

Definition create_map (df : list TrajectoryPoint) : map_outcome :=
  match df with
  | [] => NoDataToPlot
  | _ => MapSaved (map point_sequence df)
  end.

(** [main] after the CSV file was read: an exception of [process_data]
    is not caught. *)
Definition main (df : list RawRow) (remove_duplicates : bool)
  : result map_outcome :=
  processed_df <- process_data df remove_duplicates ;;
  Ok (create_map processed_df).

End Process.

(** ** The sorting procedure behind [sort_values] *)

(** For a [datetime64] column [sort_values] calls [numpy.argsort] with
    [kind='quicksort'] and reorders the rows by the indices it returns.
    The column has no missing value here ([dropna] came before). *)
Module Numpy.

(** [SMALL_QUICKSORT]: a partition of at most 16 elements is sorted by
    insertion. *)
Definition SMALL_QUICKSORT : nat := 15.

Section Insertion.

Variable A : Type.
Variable less : A -> A -> bool.

(** The inner loop of the insertion sort: the elements before the new one
    are visited from right to left (the list [sorted] holds them in that
    order) and moved one place up while the new one is less. *)
Fixpoint insert (vi : A) (sorted : list A) : list A :=
  match sorted with
  | [] => [vi]
  | k :: before => if less vi k then k :: insert vi before else vi :: sorted
  end.

Definition insertion_sort (l : list A) : list A :=
  rev (fold_left (fun sorted vi => insert vi sorted) l []).

End Insertion.

Section Argsort.

(** The column [v], and the index array [tosort] that is permuted. *)
Variable v : list Z.

Definition less (i j : nat) : bool := (nth i v 0 <? nth j v 0)%Z.

Definition get (tosort : list nat) (p : nat) : nat := nth p tosort O.

Definition set (tosort : list nat) (p x : nat) : list nat :=
  firstn p tosort ++ x :: skipn (S p) tosort.

(** [INTP_SWAP]: the contents of two places change places. *)
Definition swap (tosort : list nat) (p q : nat) : list nat :=
  set (set tosort p (get tosort q)) q (get tosort p).

(** [do ++pi; while (less(v[tosort[pi]], vp));] where [vp] is given by the
    index that holds it. *)
Fixpoint scan_up (fuel : nat) (t : list nat) (vp pi : nat) : nat :=
  match fuel with
  | O => S pi
  | S fuel' =>
      if less (get t (S pi)) vp then scan_up fuel' t vp (S pi) else S pi
  end.

(** [do --pj; while (less(vp, v[tosort[pj]]));] *)
Fixpoint scan_down (fuel : nat) (t : list nat) (vp pj : nat) : nat :=
  match fuel with
  | O => (pj - 1)%nat
  | S fuel' =>
      if less vp (get t (pj - 1)%nat)
      then scan_down fuel' t vp (pj - 1)%nat
      else (pj - 1)%nat
  end.

(** The loop [for (;;)] of the partition. *)
Fixpoint exchange (fuel : nat) (t : list nat) (vp pi pj : nat)
  : list nat * nat :=
  match fuel with
  | O => (t, pi)
  | S fuel' =>
      let pi := scan_up (length t) t vp pi in
      let pj := scan_down (length t) t vp pj in
      if (pj <=? pi)%nat then (t, pi)
      else exchange fuel' (swap t pi pj) vp pi pj
  end.

(** One partition of the places [pl .. pr]: median of three, the pivot
    parked at [pr - 1], the exchange loop, the pivot put in its place
    [pi], which is returned with the array. *)
Definition partition (pl pr : nat) (t : list nat) : list nat * nat :=
  let pm := (pl + (pr - pl) / 2)%nat in
  let t := if less (get t pm) (get t pl) then swap t pm pl else t in
  let t := if less (get t pr) (get t pm) then swap t pr pm else t in
  let t := if less (get t pm) (get t pl) then swap t pm pl else t in
  let vp := get t pm in
  let pj := (pr - 1)%nat in
  let t := swap t pm pj in
  let '(t, pi) := exchange (length t) t vp pl pj in
  (swap t pi (pr - 1)%nat, pi).

(** The insertion sort of the places [pl .. pr]. *)
Definition insertion (pl pr : nat) (t : list nat) : list nat :=
  let len := (S pr - pl)%nat in
  firstn pl t ++ insertion_sort less (firstn len (skipn pl t))
         ++ skipn (pl + len)%nat t.

(** The main loop.  The stack of pending partitions is replaced by
    recursion: the partitions are disjoint, so the order in which they
    are sorted does not matter.  [popped] tells whether the partition
    comes from the stack (or is the whole array): only then is the depth
    limit tested.  [None]: the depth limit is reached, where the program
    switches to heapsort, which is not modelled (or the fuel is used
    up). *)
Fixpoint quicksort (fuel : nat) (popped : bool) (pl pr : nat) (cdepth : Z)
         (t : list nat) : option (list nat) :=
  match fuel with
  | O => None
  | S fuel' =>
      if popped && (cdepth <? 0)%Z then None
      else if (SMALL_QUICKSORT <? pr - pl)%nat then
        let '(t, pi) := partition pl pr t in
        let cdepth := (cdepth - 1)%Z in
        if (pi - pl <? pr - pi)%nat then
          match quicksort fuel' false pl (pi - 1)%nat cdepth t with
          | Some t => quicksort fuel' true (pi + 1)%nat pr cdepth t
          | None => None
          end
        else
          match quicksort fuel' false (pi + 1)%nat pr cdepth t with
          | Some t => quicksort fuel' true pl (pi - 1)%nat cdepth t
          | None => None
          end
      else Some (insertion pl pr t)
  end.

(** [aquicksort]: the indices that sort [v]. *)
Definition argsort : option (list nat) :=
  let num := length v in
  quicksort (S num) true 0 (num - 1)%nat (2 * Z.log2 (Z.of_nat num))%Z
            (seq 0 num).

End Argsort.

End Numpy.

(** *** A merge sort *)

Module TsOrder <: TotalLeBool.
Definition t := ParsedRow.
Definition leb (a b : t) : bool := (ts a <=? ts b)%Z.
Definition leb_total : forall a b, leb a b = true \/ leb b a = true.
Proof.
  intros a b. unfold leb.
  destruct (Z.leb_spec (ts a) (ts b)); [now left | right].
  apply Z.leb_le. lia.
Qed.
End TsOrder.

Module TsSort := Sort TsOrder.

Ltac sorted_from_leb :=
  match goal with
  | |- Sorted _ (TsSort.sort ?l) =>
      generalize (TsSort.Sorted_sort l);
      induction 1 as [|? ? ? ? Hd]; constructor; auto;
      destruct Hd; constructor; now apply Z.leb_le
  end.

(** The merge sort of the standard library: another procedure with the
    contract of [sort_values], not the one the program runs.  Rows with the
    same timestamp can change places in it. *)
#[local] Program Instance merge_sorter : SortValues := {
  sort_values := TsSort.sort
}.
Next Obligation. apply TsSort.Permuted_sort. Qed.
Next Obligation. sorted_from_leb. Qed.

(** *** The procedure the program runs *)

(** [df.iloc[indexer]] *)
Definition take (df : list ParsedRow) (indexer : list nat)
  : list ParsedRow :=
  flat_map (fun i => match nth_error df i with
                     | Some row => [row]
                     | None => []
                     end) indexer.

Fixpoint is_sorted (df : list ParsedRow) : bool :=
  match df with
  | a :: (b :: _) as df' => (ts a <=? ts b)%Z && is_sorted df'
  | _ => true
  end.

(** Whether [indexer] holds each of the indices [0 .. n - 1] once. *)
Fixpoint no_repeat (indexer : list nat) : bool :=
  match indexer with
  | [] => true
  | i :: indexer' => negb (existsb (Nat.eqb i) indexer') && no_repeat indexer'
  end.

Definition is_permutation (indexer : list nat) (n : nat) : bool :=
  (length indexer =? n)%nat && forallb (fun i => (i <? n)%nat) indexer
  && no_repeat indexer.

(** [argsort] returns a permutation of the indices that sorts the column.
    Rather than proving this of the partition scheme, the result of the
    model is tested: where it is such a permutation it is used.  The
    merge sort stands in where it is not, which includes the frames on
    which the program switches to heapsort; no frame of this file is one
    of them. *)
Definition numpy_sort (df : list ParsedRow) : list ParsedRow :=
  match Numpy.argsort (map ts df) with
  | Some indexer =>
      if is_permutation indexer (length df) && is_sorted (take df indexer)
      then take df indexer
      else TsSort.sort df
  | None => TsSort.sort df
  end.

#[local] Program Instance numpy_quicksort : SortValues := {
  sort_values := numpy_sort
}.
Next Obligation.
  unfold numpy_sort.
  destruct (Numpy.argsort _) as [indexer|]; [|apply TsSort.Permuted_sort].
  destruct (is_permutation _ _ && _) eqn:E; [|apply TsSort.Permuted_sort].
  apply andb_prop in E. destruct E as [E _]. unfold is_permutation in E.
  apply andb_prop in E. destruct E as [E Hn].
  apply andb_prop in E. destruct E as [Hl Hr].
  apply Nat.eqb_eq in Hl. rewrite forallb_forall in Hr.
  assert (N : NoDup indexer).
  { clear Hl Hr. induction indexer as [|i l IH]; constructor.
    - simpl in Hn. apply andb_prop in Hn. destruct Hn as [Hn _].
      intro Hi. apply negb_true_iff in Hn.
      assert (existsb (Nat.eqb i) l = true)
        by (apply existsb_exists; exists i; split;
            [assumption | apply Nat.eqb_refl]).
      congruence.
    - apply IH. simpl in Hn. apply andb_prop in Hn. apply Hn. }
  assert (P : Permutation indexer (seq 0 (length df))).
  { apply NoDup_Permutation_bis; [exact N | rewrite length_seq; lia|].
    intros i Hi. apply in_seq. specialize (Hr i Hi).
    apply Nat.ltb_lt in Hr. lia. }
  apply Permutation_sym.
  transitivity (take df (seq 0 (length df)));
    [apply Permutation_flat_map; exact P|].
  assert (G : forall pre rows,
             take (pre ++ rows) (seq (length pre) (length rows)) = rows).
  { intros pre rows. revert pre.
    induction rows as [|row rows IH]; intro pre; [reflexivity|].
    unfold take in *. simpl.
    rewrite nth_error_app2, Nat.sub_diag by lia. simpl. f_equal.
    specialize (IH (pre ++ [row])).
    rewrite <- app_assoc, length_app, Nat.add_1_r in IH. exact IH. }
  pose proof (G [] df) as G0. simpl in G0. rewrite G0. reflexivity.
Qed.
Next Obligation.
  assert (G : forall rows, is_sorted rows = true ->
                           Sorted (fun a b => (ts a <= ts b)%Z) rows).
  { induction rows as [|a rows IH]; intro H; constructor.
    - apply IH. destruct rows as [|b rows]; [reflexivity|].
      simpl in H. apply andb_prop in H. apply H.
    - destruct rows as [|b rows]; constructor.
      simpl in H. apply andb_prop in H. apply Z.leb_le, H. }
  unfold numpy_sort.
  destruct (Numpy.argsort _) as [indexer|]; [|sorted_from_leb].
  destruct (is_permutation _ _ && _) eqn:E; [|sorted_from_leb].
  apply andb_prop in E. now apply G.
Qed.

(** ** The trajectory, point by point *)

(** The row [add_columns] builds at index [i] of the sorted frame [df]. *)
Definition row_at (df : list ParsedRow) (i : nat) (r : ParsedRow) : Row :=
  let prev := match i with O => None | S j => nth_error df j end in
  mk_row r (Z.of_nat i + 1)
         (option_map lat prev) (option_map lon prev)
         (option_map parsed_timestamp prev)
         (option_map (hours_between (parsed_timestamp r))
                     (option_map parsed_timestamp prev)).

(** The value [calculate_distance] returns, where it returns. *)
Definition distance_value (row : Row) : R :=
  match prev_lat row, prev_lon row with
  | Some lat1, Some lon1 =>
      let '(lat2, lon2) := coords (base row) in
      haversine (Q2R lat1) (Q2R lon1) (Q2R lat2) (Q2R lon2)
  | _, _ => 0
  end.

Definition point_at (df : list ParsedRow) (i : nat) (r : ParsedRow)
  : TrajectoryPoint :=
  let row := row_at df i r in
  let d := distance_value row in
  mk_point r (sequence row) d (calculate_avg_speed row d).

(** The frame [process_data] returns for the sorted frame [df]. *)
Definition trajectory (df : list ParsedRow) : list TrajectoryPoint :=
  map (fun ir => point_at df (fst ir) (snd ir))
      (combine (seq 0 (length df)) df).

(** Line 116 on the sorted frame [df]: the column of distances, or the
    exception of the first call of [haversine] that raises. *)
Definition distances {libm : Double.Libm} (df : list ParsedRow)
  : result (list R) :=
  apply_axis1 calculate_distance
              (map (fun ir => row_at df (fst ir) (snd ir))
                   (combine (seq 0 (length df)) df)).

(** The pairs of rows [haversine] is called on: each row of the sorted
    frame with the row after it. *)
Definition neighbours (df : list ParsedRow)
  : list (ParsedRow * ParsedRow) :=
  combine df (tl df).

(** The call of [haversine] for the row [q] with the predecessor [p], in
    doubles. *)
Definition double_between {libm : Double.Libm} (p q : ParsedRow)
  : result Double.float :=
  Double.haversine (Double.double (lat p)) (Double.double (lon p))
                   (Double.double (lat q)) (Double.double (lon q)).

(** Whether every call of [haversine] on the sorted frame [df] returns. *)
Definition haversine_returns {libm : Double.Libm} (df : list ParsedRow)
  : bool :=
  forallb (fun pq => match double_between (fst pq) (snd pq) with
                     | Ok _ => true
                     | Raise _ => false
                     end)
          (neighbours df).

(** The rows that survive parsing and, when it is enabled, deduplication
    (lines 81-89). *)
Definition surviving_rows (df : list RawRow) (remove_duplicates : bool)
  : result (list ParsedRow) :=
  if remove_duplicates then drop_duplicates (parsed_rows df)
  else Ok (parsed_rows df).

(** ** What the two patterns accept *)

(** [lang r w g]: the text [w] is matched by [r], capturing the groups
    [g]. *)
Inductive lang : regex -> str -> list str -> Prop :=
| lang_Eps : lang Eps [] []
| lang_Chr c : lang (Chr c) [c] []
| lang_ChrI c x : lower x = c -> lang (ChrI c) [x] []
| lang_Cls (p : ascii -> bool) c : p c = true -> lang (Cls p) [c] []
| lang_Star (p : ascii -> bool) w : forallb p w = true -> lang (Star p) w []
| lang_Seq r1 r2 w1 g1 w2 g2 :
    lang r1 w1 g1 -> lang r2 w2 g2 -> lang (Seq r1 r2) (w1 ++ w2) (g1 ++ g2)
| lang_Alt_l r1 r2 w g : lang r1 w g -> lang (Alt r1 r2) w g
| lang_Alt_r r1 r2 w g : lang r2 w g -> lang (Alt r1 r2) w g
| lang_Grp r w g : lang r w g -> lang (Grp r) w (w :: g).

(** [h] is the match a backtracking engine finds first. *)
Definition first_hit (r : regex) (s : str) (h : hit) : Prop :=
  exists others, matches r s = h :: others.

(** The text [s] does not start with a character of the class [p]. *)
Definition next_not (p : ascii -> bool) (s : str) : Prop :=
  match s with
  | c :: _ => p c = false
  | [] => True
  end.

(** A run of white space, possibly empty. *)
Definition spaces (w : str) : Prop := forallb is_space w = true.

(** A non-empty run of the characters [-], [.] and digits. *)
Definition number_text (w : str) : Prop :=
  w <> [] /\ forallb num_char w = true.

(** Between [lo] and [hi] digits. *)
Definition digits_text (lo hi : nat) (w : str) : Prop :=
  (lo <= length w <= hi)%nat /\ forallb is_digit w = true.

(** The strings on which the position pattern matches, with the two groups
    it captures and the text it leaves unread:
    [POINT], blanks, [(], blanks, a number text, at least one blank, a
    number text, blanks, [)] and then anything. *)
Definition position_shape (s g1 g2 rest : str) : Prop :=
  exists ws1 ws2 ws3 ws4,
    s = s2l "POINT" ++ ws1 ++ s2l "(" ++ ws2 ++ g1 ++ ws3 ++ g2 ++ ws4
            ++ s2l ")" ++ rest
    /\ spaces ws1 /\ spaces ws2 /\ spaces ws3 /\ ws3 <> [] /\ spaces ws4
    /\ number_text g1 /\ number_text g2.

(** The texts [float] accepts among the number texts: an optional minus
    sign, digits, optionally a point and more digits, with a digit
    somewhere. *)
Definition decimal_text (w : str) : Prop :=
  exists sign ip point fp,
    w = sign ++ ip ++ point ++ fp
    /\ (sign = [] \/ sign = s2l "-")
    /\ (point = [] /\ fp = [] \/ point = s2l ".")
    /\ forallb is_digit ip = true /\ forallb is_digit fp = true
    /\ (ip ++ fp)%list <> [].

(** The strings on which the pattern of the timestamp format matches to
    their end: a month abbreviation in any letter case, blanks, a day of one
    or two characters, a comma, blanks, four digits, blanks, [@], blanks,
    hour, minute and second of one or two digits each, and one to six digits
    of fraction. *)
Definition timestamp_shape (s : str) : Prop :=
  exists b ws1 d ws2 Y ws3 ws4 H M S f,
    s = b ++ ws1 ++ d ++ s2l "," ++ ws2 ++ Y ++ ws3 ++ s2l "@" ++ ws4
          ++ H ++ s2l ":" ++ M ++ s2l ":" ++ S ++ s2l "." ++ f
    /\ In (map lower b) (map s2l Strptime.a_month)
    /\ (spaces ws1 /\ ws1 <> []) /\ (spaces ws2 /\ ws2 <> [])
    /\ (spaces ws3 /\ ws3 <> []) /\ (spaces ws4 /\ ws4 <> [])
    /\ (digits_text 1 2 d
        \/ exists c, d = [" "%char; c] /\ is_digit c = true)
    /\ digits_text 4 4 Y
    /\ digits_text 1 2 H /\ digits_text 1 2 M /\ digits_text 1 2 S
    /\ digits_text 1 6 f.

(** The position strings [extract_coordinates] accepts: the shape, with
    two number texts that [float] accepts. *)
Definition position_accepted (s : str) : Prop :=
  exists g1 g2 rest,
    position_shape s g1 g2 rest /\ decimal_text g1 /\ decimal_text g2.

(** ** The grammars in the words of the specification *)

(** A pattern matches the whole of a string. *)
Definition full_match (r : regex) (s : str) : bool :=
  existsb (fun h : hit => match snd h with [] => true | _ => false end)
          (matches r s).

(** "signed decimal number": an optional sign, digits with an optional
    fractional part, or a point and digits. *)
Definition spec_number : regex :=
  Seq (Opt (Cls (fun c => Ascii.eqb c "+" || Ascii.eqb c "-")))
      (Alt (Seq (Plus is_digit) (Opt (Seq (Chr ".") (Star is_digit))))
           (Seq (Chr ".") (Plus is_digit))).

(** "a string of the shape POINT (<lon> <lat>) where <lon> and <lat> are
    signed decimal numbers separated by whitespace", read with blanks
    allowed wherever the program allows them. *)
Definition spec_position_grammar (s : string) : bool :=
  full_match
    (Seq (Lit (s2l "POINT"))
    (Seq (Star is_space)
    (Seq (Chr "(")
    (Seq (Star is_space)
    (Seq spec_number
    (Seq (Plus is_space)
    (Seq spec_number
    (Seq (Star is_space)
         (Chr ")")))))))))
    (s2l s).

(** "<abbreviated month> <day>, <year> @ <hour>:<minute>:<second>.
    <fractional-second(3 digits)>", read with one or two digits for day,
    hour, minute and second, any number of digits for the year, any letter
    case for the month and any blanks for a space; the fraction has three
    digits. *)
Definition spec_timestamp_shape (s : string) : bool :=
  let d := Cls is_digit in
  let d12 := Seq d (Opt d) in
  let month :=
    fold_right (fun n r => Alt (LitI (s2l n)) r) (LitI (s2l "dec"))
               (removelast Strptime.a_month) in
  full_match
    (Seq month (Seq (Plus is_space)
    (Seq d12 (Seq (Chr ",") (Seq (Plus is_space)
    (Seq (Plus is_digit) (Seq (Plus is_space) (Seq (Chr "@")
    (Seq (Plus is_space)
    (Seq d12 (Seq (Chr ":")
    (Seq d12 (Seq (Chr ":")
    (Seq d12 (Seq (Chr ".")
    (Seq d (Seq d d)))))))))))))))))
    (s2l s).

(** ** Sample frames *)

Definition row_1359 : RawRow :=
  mk_raw "Jun 28, 2024 @ 13:59:38.831" "POINT (-122.4194 37.7749)"
         "US" "route-1".

Definition row_1459 : RawRow :=
  mk_raw "Jun 28, 2024 @ 14:59:38.831" "POINT (-122.4094 37.7849)"
         "US" "route-1".

(** Same instant and place as [row_1359], another route. *)
Definition row_1359_bis : RawRow :=
  mk_raw "Jun 28, 2024 @ 13:59:38.831" "POINT (-122.4194 37.7749)"
         "US" "route-2".

Definition row_bad_timestamp : RawRow :=
  mk_raw "2024-06-28 13:59:38" "POINT (-122.4194 37.7749)" "US" "route-1".

Definition row_bad_position : RawRow :=
  mk_raw "Jun 28, 2024 @ 13:59:38.831" "POINT (+1 2)" "US" "route-1".

Definition sample_frame : list RawRow :=
  [row_1459; row_bad_timestamp; row_1359; row_bad_position; row_1359_bis].

(** ** Stability, as the specification words it *)



(** The trajectory of [sample_frame]. *)
Definition sample_trajectory : list TrajectoryPoint :=
  trajectory (sort_values (SortValues := numpy_quicksort)
                          (parsed_rows sample_frame)).

(** ** Timestamps written in the format the program reads *)

(** [n] in [width] decimal digits, zero padded (the last [width] digits). *)
Fixpoint zero_padded (width : nat) (n : Z) : str :=
  match width with
  | O => []
  | S w => zero_padded w (n / 10) ++ [Fmt.digit (n mod 10)]
  end.

(** [calendar.month_abbr[m]] *)
Definition month_abbr (m : Z) : str :=
  s2l (nth (Z.to_nat (m - 1))
           ["Jan"; "Feb"; "Mar"; "Apr"; "May"; "Jun";
            "Jul"; "Aug"; "Sep"; "Oct"; "Nov"; "Dec"]%string ""%string).

(** The text of [dt] in the format of the comment on line 31,
    [Jun 28, 2024 @ 13:59:38.831]: what
    [dt.strftime('%b %d, %Y @ %H:%M:%S.')] gives, followed by the
    milliseconds in three digits. *)
Definition timestamp_text (dt : datetime) : str :=
  month_abbr (month dt) ++ s2l " " ++ zero_padded 2 (day dt) ++ s2l ", "
    ++ zero_padded 4 (year dt) ++ s2l " @ "
    ++ zero_padded 2 (hour dt) ++ s2l ":" ++ zero_padded 2 (minute dt)
    ++ s2l ":" ++ zero_padded 2 (second dt) ++ s2l "."
    ++ zero_padded 3 (microsecond dt / 1000).

(** ** The map [create_map] builds (lines 139-218) *)

(** [Series.mean] of a column of numbers, in exact arithmetic (the mean
    computed in doubles can differ from it in the last place). *)
Definition mean (col : list Q) : Q :=
  fold_right Qplus 0 col / inject_Z (Z.of_nat (length col)).

(** [str(row['parsed_timestamp'])]: the ISO text with a space between
    date and time, the microseconds only when there are some. *)
Definition timestamp_str (dt : datetime) : string :=
  string_of_list_ascii
    (zero_padded 4 (year dt) ++ s2l "-" ++ zero_padded 2 (month dt)
       ++ s2l "-" ++ zero_padded 2 (day dt) ++ s2l " "
       ++ zero_padded 2 (hour dt) ++ s2l ":" ++ zero_padded 2 (minute dt)
       ++ s2l ":" ++ zero_padded 2 (second dt)
       ++ (if (microsecond dt =? 0)%Z then []
           else s2l "." ++ zero_padded 6 (microsecond dt))).

(** Lines 148-153. *)
Definition distance_str (row : TrajectoryPoint) : string :=
  if (point_sequence row =? 1)%Z then "N/A"
  else (Fmt.format_2f (distance_km row) ++ " km")%string.

Definition speed_str (row : TrajectoryPoint) : string :=
  if (point_sequence row =? 1)%Z then "N/A" else avg_speed_kmh row.

(** Lines 156-162. *)
Definition popup_html (row : TrajectoryPoint) : string :=
  ("<b>Time:</b> " ++ timestamp_str (parsed_timestamp (point row)) ++ "<br>"
   ++ "<b>Country Code:</b> " ++ country_code (raw (point row)) ++ "<br>"
   ++ "<b>Route ID:</b> " ++ route_id (raw (point row)) ++ "<br>"
   ++ "<b>Distance from Previous:</b> " ++ distance_str row ++ "<br>"
   ++ "<b>Average Speed since Previous:</b> " ++ speed_str row)%string.

(** A numbered marker: where it stands, the number in its icon and the
    text of its popup. *)
Record Marker : Type := mk_marker {
  marker_location : Q * Q;
  marker_number : Z;
  marker_popup : string
}.

(** What is put on the map [m]: its centre, the numbered markers, the line
    through the points, and where the green "Start" and the red "End"
    markers stand. *)
Record FoliumMap : Type := mk_map {
  location : Q * Q;
  zoom_start : Z;
  markers : list Marker;
  polyline : list (Q * Q);
  start_marker : Q * Q;
  end_marker : Q * Q
}.

(** The value of [m] when [create_map] saves it; [None] when the frame is
    empty and the function returns before building a map. *)
Definition create_map_m (df : list TrajectoryPoint) : option FoliumMap :=
  match df with
  | [] => None
  | first :: _ =>
      let avg_lat := mean (map (fun row => lat (point row)) df) in
      let avg_lon := mean (map (fun row => lon (point row)) df) in
      Some (mk_map (avg_lat, avg_lon) 15
              (map (fun row => mk_marker (coords (point row))
                                         (point_sequence row)
                                         (popup_html row)) df)
              (map (fun row => coords (point row)) df)
              (coords (point first))
              (coords (point (last df first))))
  end.

(** ** A frame whose second point stays where the first one is *)

(** The place of [row_1359], an hour later. *)
Definition row_1459_same_place : RawRow :=
  mk_raw "Jun 28, 2024 @ 14:59:38.831" "POINT (-122.4194 37.7749)"
         "US" "route-1".

Definition still_frame : list RawRow := [row_1359; row_1459_same_place].

Definition still_trajectory : list TrajectoryPoint :=
  trajectory (sort_values (SortValues := numpy_quicksort)
                          (parsed_rows still_frame)).

(** ** Seventeen fixes in the order they were taken *)




(** ** Two fixes on opposite sides of the Earth *)

Definition row_82_south : RawRow :=
  mk_raw "Jun 28, 2024 @ 13:59:38.831" "POINT (-179 -82)" "AQ" "route-1".

Definition row_82_north : RawRow :=
  mk_raw "Jun 28, 2024 @ 14:59:38.831" "POINT (1 82)" "NO" "route-1".

Definition antipodal_frame : list RawRow := [row_82_south; row_82_north].

(** * Properties *)

(** ** Lists and columns *)

Lemma combine_map_r {A B} (f : A -> B) (l : list A) :
  combine l (map f l) = map (fun x => (x, f x)) l.
Proof. induction l as [|a l IH]; simpl; [reflexivity | now rewrite IH]. Qed.

Lemma nth_error_combine {A B} (l1 : list A) (l2 : list B) (i : nat) :
  nth_error (combine l1 l2) i =
  match nth_error l1 i, nth_error l2 i with
  | Some a, Some b => Some (a, b)
  | _, _ => None
  end.
Proof.
  revert l2 i. induction l1 as [|a l1 IH]; intros [|b l2] [|i]; simpl; auto.
  - now destruct (nth_error l1 i).
Qed.

Lemma nth_error_shift {A} (col : list A) (i : nat) :
  nth_error (shift col) i =
  if (i <? length col)%nat
  then Some (match i with O => None | S j => nth_error col j end)
  else None.
Proof.
  unfold shift. rewrite nth_error_firstn.
  destruct (Nat.ltb_spec i (length col)) as [Hlt|]; [|reflexivity].
  destruct i as [|j]; simpl; [reflexivity|].
  rewrite nth_error_map.
  destruct (nth_error col j) eqn:E; [reflexivity|].
  apply nth_error_None in E. lia.
Qed.

Lemma nth_error_index {A} (l : list A) (i : nat) :
  nth_error (combine (seq 0 (length l)) l) i =
  option_map (fun x => (i, x)) (nth_error l i).
Proof.
  rewrite nth_error_combine, nth_error_seq.
  destruct (Nat.ltb_spec i (length l)) as [Hlt|Hge].
  - now destruct (nth_error l i).
  - apply nth_error_None in Hge. now rewrite Hge.
Qed.

(** ** The pipeline after the sort *)

Lemma add_columns_ok (df : list ParsedRow) :
  add_columns datetime64 df =
  Ok (map (fun ir => row_at df (fst ir) (snd ir))
          (combine (seq 0 (length df)) df)).
Proof.
  unfold add_columns, time_diff. simpl. f_equal.
  apply nth_error_ext. intro i.
  rewrite !nth_error_map, nth_error_index.
  rewrite !nth_error_combine, !nth_error_map, !nth_error_combine.
  rewrite !nth_error_shift, !nth_error_map, nth_error_seq, !length_map.
  destruct (nth_error df i) as [r|] eqn:E; simpl.
  - assert (Hlt : (i < length df)%nat) by (apply nth_error_Some; congruence).
    apply Nat.ltb_lt in Hlt. rewrite Hlt. simpl.
    unfold row_at. destruct i as [|j]; simpl; [reflexivity|].
    rewrite !nth_error_map. now destruct (nth_error df j).
  - reflexivity.
Qed.

Lemma length_index {A} (l : list A) :
  length (combine (seq 0 (length l)) l) = length l.
Proof. rewrite length_combine, length_seq. apply Nat.min_id. Qed.

(** ** [apply] with a function that can raise *)

Lemma apply_axis1_Ok {A B} (f : A -> B) (df : list A) :
  apply_axis1 (fun row => Ok (f row)) df = Ok (map f df).
Proof.
  induction df as [|row df IH]; simpl; [reflexivity|]. now rewrite IH.
Qed.

(** The column is returned exactly when the function returns on every
    row. *)
Lemma apply_axis1_returns {A B} (f : A -> result B) (g : A -> B)
      (df : list A) :
  (forall row, In row df -> f row = Ok (g row)) ->
  apply_axis1 f df = Ok (map g df).
Proof.
  induction df as [|row df IH]; intro H; simpl; [reflexivity|].
  rewrite (H row (or_introl eq_refl)). simpl.
  rewrite IH by (intros r Hr; apply H; now right). reflexivity.
Qed.

Lemma apply_axis1_Ok_inv {A B} (f : A -> result B) (df : list A)
      (vs : list B) :
  apply_axis1 f df = Ok vs ->
  forall row, In row df -> exists v, f row = Ok v.
Proof.
  revert vs. induction df as [|row df IH]; intros vs H r Hr; [destruct Hr|].
  simpl in H. destruct (f row) as [v|e] eqn:E; [|discriminate]. simpl in H.
  destruct (apply_axis1 f df) as [vs'|e] eqn:E'; [|discriminate].
  destruct Hr as [<-|Hr]; [eauto | now apply (IH vs')].
Qed.


(** ** The distances *)

Section Distances.

Context {libm : Double.Libm}.

Lemma haversine_call_double (lat1 lon1 lat2 lon2 : Q) :
  haversine_call lat1 lon1 lat2 lon2
  = match Double.haversine (Double.double lat1) (Double.double lon1)
                           (Double.double lat2) (Double.double lon2) with
    | Ok _ => Ok (haversine (Q2R lat1) (Q2R lon1) (Q2R lat2) (Q2R lon2))
    | Raise e => Raise e
    end.
Proof. unfold haversine_call. now destruct (Double.haversine _ _ _ _). Qed.

(** The call for the row [q] with the predecessor [p]. *)
Lemma haversine_call_between (p q : ParsedRow) :
  haversine_call (lat p) (lon p) (lat q) (lon q)
  = match double_between p q with
    | Ok _ => Ok (haversine (Q2R (lat p)) (Q2R (lon p))
                            (Q2R (lat q)) (Q2R (lon q)))
    | Raise e => Raise e
    end.
Proof. apply haversine_call_double. Qed.

Lemma calculate_distance_row_at (df : list ParsedRow) (i : nat)
      (r : ParsedRow) :
  calculate_distance (row_at df i r)
  = match i with
    | O => Ok 0%R
    | S j =>
        match nth_error df j with
        | Some p => haversine_call (lat p) (lon p) (lat r) (lon r)
        | None => Ok 0%R
        end
    end.
Proof.
  unfold calculate_distance, row_at. cbn [prev_lat prev_lon base].
  destruct i as [|j]; [reflexivity|].
  destruct (nth_error df j) as [p|]; [|reflexivity].
  unfold lat, lon. cbn [option_map]. now destruct (coords r).
Qed.

Lemma distance_value_row_at (df : list ParsedRow) (i : nat) (r : ParsedRow) :
  distance_value (row_at df i r)
  = match i with
    | O => 0%R
    | S j =>
        match nth_error df j with
        | Some p => haversine (Q2R (lat p)) (Q2R (lon p))
                              (Q2R (lat r)) (Q2R (lon r))
        | None => 0%R
        end
    end.
Proof.
  unfold distance_value, row_at. cbn [prev_lat prev_lon base].
  destruct i as [|j]; [reflexivity|].
  destruct (nth_error df j) as [p|]; [|reflexivity].
  unfold lat, lon. cbn [option_map]. now destruct (coords r).
Qed.

(** Where [calculate_distance] returns, it returns the exact distance. *)
Lemma calculate_distance_value (df : list ParsedRow) (i : nat)
      (r : ParsedRow) (d : R) :
  calculate_distance (row_at df i r) = Ok d ->
  d = distance_value (row_at df i r).
Proof.
  rewrite calculate_distance_row_at, distance_value_row_at.
  destruct i as [|j]; [now intros [= <-]|].
  destruct (nth_error df j) as [p|]; [|now intros [= <-]].
  rewrite haversine_call_between.
  destruct (double_between p r); [now intros [= <-] | discriminate].
Qed.

Lemma In_neighbours (df : list ParsedRow) (p q : ParsedRow) :
  In (p, q) (neighbours df) <->
  exists j, nth_error df j = Some p /\ nth_error df (S j) = Some q.
Proof.
  unfold neighbours. split.
  - intro H. apply In_nth_error in H. destruct H as [j H].
    rewrite nth_error_combine in H. exists j.
    destruct (nth_error df j) as [a|] eqn:Ea; [|discriminate].
    destruct (nth_error (tl df) j) as [b|] eqn:Eb; [|discriminate].
    injection H as -> ->. split; [reflexivity|].
    destruct df; [now destruct j | exact Eb].
  - intros (j & Hp & Hq). apply nth_error_In with (n := j).
    rewrite nth_error_combine, Hp.
    destruct df as [|a df]; [now destruct j|]. simpl in Hq |- *.
    now rewrite Hq.
Qed.

Lemma haversine_returns_spec (df : list ParsedRow) :
  haversine_returns df = true <->
  forall p q, In (p, q) (neighbours df) ->
              exists d, haversine_call (lat p) (lon p) (lat q) (lon q)
                        = Ok d.
Proof.
  unfold haversine_returns. rewrite forallb_forall. split.
  - intros H p q Hpq. specialize (H _ Hpq). cbn [fst snd] in H.
    rewrite haversine_call_between.
    destruct (double_between p q); [eauto | discriminate].
  - intros H [p q] Hpq. cbn [fst snd]. destruct (H p q Hpq) as [d Hd].
    rewrite haversine_call_between in Hd.
    now destruct (double_between p q).
Qed.

(** The rows of the frame [add_columns] builds from the sorted frame. *)
Lemma In_rows (df : list ParsedRow) (row : Row) :
  In row (map (fun ir => row_at df (fst ir) (snd ir))
              (combine (seq 0 (length df)) df)) <->
  exists i r, nth_error df i = Some r /\ row = row_at df i r.
Proof.
  split.
  - intro H. apply in_map_iff in H. destruct H as ([i r] & <- & H).
    apply In_nth_error in H. destruct H as [k H].
    rewrite nth_error_index in H.
    destruct (nth_error df k) as [x|] eqn:E; [|discriminate].
    injection H as <- <-. eauto.
  - intros (i & r & Hi & ->). apply in_map_iff. exists (i, r).
    split; [reflexivity|]. apply nth_error_In with (n := i).
    now rewrite nth_error_index, Hi.
Qed.

Lemma distances_returns (df : list ParsedRow) :
  haversine_returns df = true ->
  distances df
  = Ok (map distance_value
            (map (fun ir => row_at df (fst ir) (snd ir))
                 (combine (seq 0 (length df)) df))).
Proof.
  intro H. apply apply_axis1_returns. intros row Hrow.
  apply In_rows in Hrow. destruct Hrow as (i & r & Hi & ->).
  rewrite calculate_distance_row_at, distance_value_row_at.
  destruct i as [|j]; [reflexivity|].
  destruct (nth_error df j) as [p|] eqn:Ep; [|reflexivity].
  assert (Hn : In (p, r) (neighbours df)) by (apply In_neighbours; eauto).
  destruct (proj1 (haversine_returns_spec df) H p r Hn) as [d Hd].
  rewrite Hd. f_equal. rewrite haversine_call_between in Hd.
  destruct (double_between p r); [now injection Hd | discriminate].
Qed.

Lemma distances_Ok (df : list ParsedRow) (ds : list R) :
  distances df = Ok ds ->
  haversine_returns df = true
  /\ ds = map distance_value
              (map (fun ir => row_at df (fst ir) (snd ir))
                   (combine (seq 0 (length df)) df)).
Proof.
  intro H.
  assert (Hr : haversine_returns df = true).
  { apply haversine_returns_spec. intros p q Hpq.
    apply In_neighbours in Hpq. destruct Hpq as (j & Hp & Hq).
    destruct (apply_axis1_Ok_inv _ _ H (row_at df (S j) q)) as [d Hd].
    - apply In_rows. eauto.
    - rewrite calculate_distance_row_at, Hp in Hd. eauto. }
  split; [exact Hr|]. rewrite (distances_returns _ Hr) in H.
  now injection H.
Qed.



(** What [process_data] does once the frame is sorted. *)
Lemma after_sort (d : dtype) (df : list ParsedRow) :
  (rows <- add_columns d df ;;
   distance_km <- apply_axis1 calculate_distance rows ;;
   avg_speed_kmh <-
     apply_axis1 (fun rd => Ok (calculate_avg_speed (fst rd) (snd rd)))
                 (combine rows distance_km) ;;
   Ok (map (fun c =>
              let '(r, dist, v) := c in
              mk_point (base r) (sequence r) dist v)
           (combine (combine rows distance_km) avg_speed_kmh)))
  = match d with
    | object => Raise AttributeError
    | datetime64 => ds <- distances df ;; Ok (trajectory df)
    end.
Proof.
  destruct d; [|reflexivity].
  rewrite add_columns_ok. unfold bind at 1. fold (distances df).
  destruct (distances df) as [ds|e] eqn:E; [|reflexivity].
  apply distances_Ok in E. destruct E as [_ ->].
  unfold bind at 1. rewrite apply_axis1_Ok. unfold bind.
  f_equal. rewrite !combine_map_r, !map_map. unfold trajectory.
  apply map_ext. intros [i p]. reflexivity.
Qed.

End Distances.

(** The timestamps that parsed, in input order. *)
Lemma dropna_with_timestamps_nil (df : list RawRow) :
  dropna (with_timestamps df) = [] <->
  infer_dtype (map (fun r => parse_timestamp (timestamp r)) df) = object.
Proof.
  unfold with_timestamps, infer_dtype.
  induction df as [|r df IH]; simpl; [tauto|].
  destruct (parse_timestamp (timestamp r)); simpl;
    [split; discriminate | exact IH].
Qed.

Lemma parsed_rows_dtype (df : list RawRow) :
  parsed_rows df <> [] ->
  infer_dtype (map (fun r => parse_timestamp (timestamp r)) df) = datetime64.
Proof.
  intro H.
  destruct (infer_dtype _) eqn:E; [reflexivity|].
  apply dropna_with_timestamps_nil in E.
  exfalso. apply H. unfold parsed_rows. now rewrite E.
Qed.

Section Pipeline.

Context {sorter : SortValues} {libm : Double.Libm}.

Lemma sort_values_nil : sort_values [] = [].
Proof. apply Permutation_nil, sort_values_perm. Qed.

Lemma sort_values_length (df : list ParsedRow) :
  length (sort_values df) = length df.
Proof. symmetry. apply Permutation_length, sort_values_perm. Qed.

(** [process_data], case by case. *)
Lemma process_data_cases (df : list RawRow) (remove_duplicates : bool) :
  process_data df remove_duplicates =
  match parsed_rows df with
  | [] =>
      match infer_dtype (map (fun r => parse_timestamp (timestamp r)) df) with
      | object => Raise AttributeError
      | datetime64 => Ok []
      end
  | _ =>
      if remove_duplicates then Raise TypeError
      else
        ds <- distances (sort_values (parsed_rows df)) ;;
        Ok (trajectory (sort_values (parsed_rows df)))
  end.
Proof.
  unfold process_data.
  destruct (parsed_rows df) as [|r rows] eqn:E.
  - assert (Hd : (if remove_duplicates then drop_duplicates [] else Ok [])
                 = Ok (@nil ParsedRow)) by now destruct remove_duplicates.
    rewrite Hd. unfold bind at 1. rewrite after_sort, sort_values_nil.
    now destruct (infer_dtype _).
  - destruct remove_duplicates; [reflexivity|].
    unfold bind at 1. rewrite after_sort.
    now rewrite parsed_rows_dtype by (rewrite E; discriminate).
Qed.

Lemma process_data_Ok (df : list RawRow) (rd : bool)
      (traj : list TrajectoryPoint) :
  process_data df rd = Ok traj ->
  surviving_rows df rd = Ok (parsed_rows df)
  /\ traj = trajectory (sort_values (parsed_rows df)).
Proof.
  rewrite process_data_cases. unfold surviving_rows.
  destruct (parsed_rows df) eqn:E.
  - rewrite sort_values_nil.
    destruct (infer_dtype _); [|discriminate].
    intro H. injection H as <-. now destruct rd.
  - destruct rd; [discriminate|].
    destruct (distances _); [|discriminate].
    intro H. injection H as <-. auto.
Qed.

(** Every call of [haversine] returned when a trajectory is returned. *)
Lemma process_data_Ok_returns (df : list RawRow) (rd : bool)
      (traj : list TrajectoryPoint) :
  process_data df rd = Ok traj ->
  haversine_returns (sort_values (parsed_rows df)) = true.
Proof.
  rewrite process_data_cases.
  destruct (parsed_rows df) eqn:E.
  - now rewrite sort_values_nil.
  - destruct rd; [discriminate|].
    destruct (distances _) as [ds|e] eqn:D; [|discriminate].
    intros _. now apply (distances_Ok _ D).
Qed.

Lemma process_data_total (df : list RawRow) :
  parsed_rows df <> [] ->
  haversine_returns (sort_values (parsed_rows df)) = true ->
  process_data df false = Ok (trajectory (sort_values (parsed_rows df))).
Proof.
  intros H Hr. rewrite process_data_cases.
  destruct (parsed_rows df); [congruence|].
  now rewrite (distances_returns _ Hr).
Qed.

Lemma nth_error_trajectory (df : list ParsedRow) (i : nat) :
  nth_error (trajectory df) i = option_map (point_at df i) (nth_error df i).
Proof.
  unfold trajectory. rewrite nth_error_map, nth_error_index.
  now destruct (nth_error df i).
Qed.

Lemma length_trajectory (df : list ParsedRow) :
  length (trajectory df) = length df.
Proof. unfold trajectory. now rewrite length_map, length_index. Qed.

Lemma map_point_trajectory (df : list ParsedRow) :
  map point (trajectory df) = df.
Proof.
  apply nth_error_ext. intro i.
  rewrite nth_error_map, nth_error_trajectory.
  now destruct (nth_error df i).
Qed.

End Pipeline.

(** ** Geodesy *)

Section GeodesyFacts.

Local Open Scope R_scope.

(** The quantity under the square roots is a convex combination of two
    squares of sines and cosines: it lies between 0 and 1. *)
Lemma haversine_a_bounds (l1 l2 dlon : R) :
  let a := (sin ((l2 - l1) / 2)) ^ 2 + cos l1 * cos l2 * (sin (dlon / 2)) ^ 2 in
  0 <= a <= 1.
Proof.
  intro a. subst a.
  set (x := (l2 - l1) / 2). set (m := (l1 + l2) / 2).
  replace l1 with (m - x) by (unfold m, x; lra).
  replace l2 with (m + x) by (unfold m, x; lra).
  rewrite cos_minus, cos_plus.
  pose proof (sin2_cos2 x) as Hx. pose proof (sin2_cos2 m) as Hm.
  pose proof (sin2_cos2 (dlon / 2)) as Hy.
  unfold Rsqr in Hx, Hm, Hy.
  set (sx := sin x) in *. set (cx := cos x) in *.
  set (sm := sin m) in *. set (cm := cos m) in *.
  set (sy := sin (dlon / 2)) in *. set (cy := cos (dlon / 2)) in *.
  assert (Cx : cx * cx = 1 - sx * sx) by lra.
  assert (Sm : sm * sm = 1 - cm * cm) by lra.
  assert (Cy : cy * cy = 1 - sy * sy) by lra.
  assert (E : sx ^ 2 + (cm * cx + sm * sx) * (cm * cx - sm * sx) * sy ^ 2
              = sx * sx * (cy * cy) + cm * cm * (sy * sy)).
  { replace ((cm * cx + sm * sx) * (cm * cx - sm * sx))
      with (cm * cm * (cx * cx) - sm * sm * (sx * sx)) by ring.
    rewrite Cx, Sm, Cy. ring. }
  rewrite E.
  assert (0 <= sx * sx <= 1) by nra. assert (0 <= cm * cm <= 1) by nra.
  assert (0 <= sy * sy <= 1) by nra. assert (0 <= cy * cy <= 1) by nra.
  split; [nra|]. rewrite Cy. nra.
Qed.

Lemma atan2_first_quadrant (y x : R) :
  0 <= y -> 0 <= x -> 0 <= atan2 y x <= PI / 2.
Proof.
  intros Hy Hx. pose proof PI_RGT_0 as Hpi. unfold atan2.
  destruct (total_order_T x 0) as [[Hlt|Heq]|Hgt].
  - lra.
  - destruct (total_order_T y 0) as [[Hlt'|Heq']|Hgt']; lra.
  - pose proof (atan_bound (y / x)) as Hb.
    assert (Hq : 0 <= y / x).
    { unfold Rdiv. apply Rmult_le_pos; [assumption|].
      left. now apply Rinv_0_lt_compat. }
    split; [|lra].
    destruct Hq as [Hq|Hq].
    + left. rewrite <- atan_0. now apply atan_increasing.
    + rewrite <- Hq, atan_0. lra.
Qed.

Lemma haversine_bounds (lat1 lon1 lat2 lon2 : R) :
  0 <= haversine lat1 lon1 lat2 lon2 <= PI * 6371.
Proof.
  unfold haversine.
  set (a := _ + _ * _ * _).
  assert (Ha : 0 <= a <= 1).
  { unfold a. pose proof (haversine_a_bounds (radians lat1) (radians lat2)
                            (radians lon2 - radians lon1)) as H.
    exact H. }
  pose proof (atan2_first_quadrant (sqrt_pos a) (sqrt_pos (1 - a))) as Hq.
  lra.
Qed.

(** The formula of the program, laid out as in the specification. *)
Lemma haversine_formula (lat1 lon1 lat2 lon2 : R) :
  let dlat := radians lat2 - radians lat1 in
  let dlon := radians lon2 - radians lon1 in
  let a := (sin (dlat / 2)) ^ 2
           + cos (radians lat1) * cos (radians lat2) * (sin (dlon / 2)) ^ 2 in
  haversine lat1 lon1 lat2 lon2 = 2 * 6371 * atan2 (sqrt a) (sqrt (1 - a)).
Proof.
  cbv zeta. unfold haversine. ring.
Qed.

End GeodesyFacts.

(** ** Sequence numbers *)

Lemma sequence_column (df : list ParsedRow) :
  map point_sequence (trajectory df) = map Z.of_nat (seq 1 (length df)).
Proof.
  apply nth_error_ext. intro i.
  rewrite !nth_error_map, nth_error_trajectory, nth_error_seq.
  destruct (nth_error df i) as [r|] eqn:E; simpl.
  - assert (Hlt : (i < length df)%nat) by (apply nth_error_Some; congruence).
    apply Nat.ltb_lt in Hlt. rewrite Hlt. simpl. f_equal. lia.
  - apply nth_error_None in E. apply Nat.ltb_ge in E. now rewrite E.
Qed.


(** ** Ordering *)

Lemma StronglySorted_map_inv {A B} (f : A -> B) (R : B -> B -> Prop)
      (l : list A) :
  StronglySorted R (map f l) -> StronglySorted (fun a b => R (f a) (f b)) l.
Proof.
  induction l as [|a l IH]; simpl; intro H; [constructor|].
  inversion H as [|? ? Hs Hf]; subst. constructor; [auto|].
  rewrite Forall_map in Hf. exact Hf.
Qed.

Lemma sort_values_strongly_sorted (sorter : SortValues)
      (df : list ParsedRow) :
  StronglySorted (fun a b => (ts a <= ts b)%Z) (sort_values df).
Proof.
  apply Sorted_StronglySorted; [|apply sort_values_sorted].
  intros a b c Hab Hbc. lia.
Qed.

(** ** The insertion sort of [numpy.argsort] *)

Section InsertionFacts.

Variable A : Type.
Variable key : A -> Z.

Let less (a b : A) : bool := (key a <? key b)%Z.










End InsertionFacts.




(** ** [sort_values] on short frames *)












(** ** Distance and speed *)

Lemma In_trajectory (df : list ParsedRow) (p : TrajectoryPoint) :
  In p (trajectory df) ->
  exists i r, nth_error df i = Some r /\ p = point_at df i r.
Proof.
  intro H. apply In_nth_error in H. destruct H as [i H].
  rewrite nth_error_trajectory in H.
  destruct (nth_error df i) as [r|] eqn:E; [|discriminate].
  injection H as <-. eauto.
Qed.

Lemma trajectory_In (df : list ParsedRow) (i : nat) (r : ParsedRow) :
  nth_error df i = Some r -> In (point_at df i r) (trajectory df).
Proof.
  intro H. apply nth_error_In with (n := i).
  now rewrite nth_error_trajectory, H.
Qed.

(** Every point after the first has a predecessor in the trajectory. *)
Lemma predecessor (df : list ParsedRow) (p : TrajectoryPoint) :
  In p (trajectory df) -> (1 < point_sequence p)%Z ->
  exists j r r',
    nth_error df (S j) = Some r /\ nth_error df j = Some r'
    /\ p = point_at df (S j) r
    /\ In (point_at df j r') (trajectory df).
Proof.
  intros H Hs. apply In_trajectory in H. destruct H as (i & r & Hi & ->).
  destruct i as [|j]; [simpl in Hs; lia|].
  destruct (nth_error df j) as [r'|] eqn:Ej.
  - exists j, r, r'. repeat split; auto. now apply trajectory_In.
  - apply nth_error_None in Ej.
    assert (S j < length df)%nat by (apply nth_error_Some; congruence). lia.
Qed.

(** *** Rounding to two decimals *)

Section Rounding.

Local Open Scope R_scope.



Lemma round_half_even_IZR (z : Z) : Fmt.round_half_even (IZR z) = z.
Proof.
  unfold Fmt.round_half_even.
  assert (E : Int_part (IZR z) = z).
  { symmetry. apply Int_part_spec. lra. }
  rewrite E. destruct (Rlt_dec (IZR z - IZR z) (1 / 2)); [reflexivity | lra].
Qed.



End Rounding.

Lemma trajectory_distance_bounds (df : list ParsedRow) (p : TrajectoryPoint) :
  In p (trajectory df) -> (0 <= distance_km p <= PI * 6371)%R.
Proof.
  intro Hp. apply In_trajectory in Hp. destruct Hp as (i & r & Hi & ->).
  unfold point_at, distance_km, distance_value.
  pose proof PI_RGT_0.
  destruct (prev_lat _); [destruct (prev_lon _)|];
    [destruct (coords _); apply haversine_bounds | lra | lra].
Qed.

(** ** [haversine] in doubles at 82 degrees south and north *)

Lemma sort_values_two (sorter : SortValues) (a b : ParsedRow) :
  (ts a < ts b)%Z -> sort_values [a; b] = [a; b].
Proof.
  intro H.
  pose proof (sort_values_perm [a; b]) as P.
  pose proof (sort_values_sorted [a; b]) as S.
  pose proof (Permutation_length P) as L.
  destruct (sort_values [a; b]) as [|x [|y [|z l]]]; try discriminate L.
  apply Permutation_length_2 in P. destruct P as [[<- <-]|[<- <-]];
    [reflexivity|].
  inversion S as [|? ? _ Hd]; subst. inversion Hd; subst. lia.
Qed.

(** With the values of the C library at 82 degrees the rounded [a] is
    [1 + 2^-52], and the square root of [1 - a] is a domain error. *)
Lemma double_haversine_82 (libm : Double.Libm) :
  Double.at_82_degrees libm ->
  Double.haversine (Double.double (-82)) (Double.double (-179))
                   (Double.double 82) (Double.double 1)
  = Raise ValueError.
Proof.
  intros (H1 & H2 & H3 & H4 & H5). unfold Double.haversine.
  repeat (cbv -[Double.libm_sin Double.libm_cos Double.libm_pow
                Double.libm_atan2];
          rewrite ?H1, ?H2, ?H3, ?H4, ?H5).
  reflexivity.
Qed.

Section Claims.

Context (sorter : SortValues) (libm : Double.Libm).

Local Open Scope R_scope.

(** C3.  In every trajectory [process_data] returns, the point with
    sequence 1 has distance exactly 0, and a point with sequence n > 1 has
    the haversine distance from the point with sequence n - 1 to itself,
    where [haversine] is 2 R atan2 (sqrt a, sqrt (1 - a)) with R = 6371 and
    a = sin^2 (dlat / 2) + cos lat1 cos lat2 sin^2 (dlon / 2), all angles in
    radians. *)
Theorem C3_distance_is_haversine (df : list RawRow) (remove_duplicates : bool)
        (traj : list TrajectoryPoint) :
  process_data df remove_duplicates = Ok traj ->
  (forall p, In p traj -> point_sequence p = 1%Z -> distance_km p = 0)
  /\ (forall p,
         In p traj -> (1 < point_sequence p)%Z ->
         exists q,
           In q traj
           /\ point_sequence q = (point_sequence p - 1)%Z
           /\ distance_km p =
              haversine (Q2R (lat (point q))) (Q2R (lon (point q)))
                        (Q2R (lat (point p))) (Q2R (lon (point p))))
  /\ (forall lat1 lon1 lat2 lon2,
         let dlat := radians lat2 - radians lat1 in
         let dlon := radians lon2 - radians lon1 in
         let a := (sin (dlat / 2)) ^ 2
                  + cos (radians lat1) * cos (radians lat2)
                    * (sin (dlon / 2)) ^ 2 in
         haversine lat1 lon1 lat2 lon2
         = 2 * 6371 * atan2 (sqrt a) (sqrt (1 - a))).
Proof.
  intro H. apply process_data_Ok in H. destruct H as (_ & ->).
  set (l := sort_values (parsed_rows df)).
  split; [|split].
  - intros p Hp Hs. apply In_trajectory in Hp.
    destruct Hp as (i & r & Hi & ->). simpl in Hs.
    assert (i = O) by lia. subst i. reflexivity.
  - intros p Hp Hs.
    destruct (predecessor _ _ Hp Hs) as (j & r & r' & Hr & Hr' & -> & Hq).
    exists (point_at l j r'). split; [exact Hq|]. split.
    + unfold point_at, row_at. cbn [point_sequence sequence]. lia.
    + unfold point_at, distance_km, distance_value, row_at.
      simpl. rewrite Hr'. simpl. unfold lat, lon.
      now destruct (coords r).
  - intros. apply haversine_formula.
Qed.

(** C10 (code defect).  [haversine] does not return a value for all
    coordinates.  From 82 degrees south, 179 degrees west to 82 degrees
    north, 1 degree east the doubles give [a = 1 + 2^-52], [math.sqrt]
    raises [ValueError] on [1 - a], and so does [process_data] on a frame
    with these two fixes.  What holds is the rest of the claim: a value
    [haversine] returns lies between 0 and pi * 6371, and no point of a
    returned trajectory carries a negative distance. *)
Theorem C10_distance_nonnegative :
  (Double.at_82_degrees libm ->
   haversine_call (-82) (-179) 82 1 = Raise ValueError
   /\ process_data antipodal_frame false = Raise ValueError)
  /\ (forall lat1 lon1 lat2 lon2 d,
         haversine_call lat1 lon1 lat2 lon2 = Ok d ->
         0 <= d <= PI * 6371)
  /\ (forall df remove_duplicates traj p,
         process_data df remove_duplicates = Ok traj ->
         In p traj -> 0 <= distance_km p <= PI * 6371).
Proof.
  split; [|split].
  - intro H82. pose proof (double_haversine_82 H82) as Hd. split.
    { rewrite haversine_call_double, Hd. reflexivity. }
    rewrite process_data_cases.
    destruct (parsed_rows antipodal_frame) as [|a [|b [|c l]]] eqn:E;
      vm_compute in E; try discriminate E.
    injection E as <- <-.
    rewrite sort_values_two by (vm_compute; reflexivity).
    unfold distances. cbn [length seq combine map fst snd apply_axis1].
    rewrite !calculate_distance_row_at. cbn [nth_error bind].
    rewrite haversine_call_double. unfold lat, lon. cbn [coords fst snd].
    match goal with
    | |- context [Double.haversine ?a ?b ?c ?d] =>
        replace (Double.haversine a b c d)
          with (@Raise Double.float ValueError)
          by (rewrite <- Hd; reflexivity)
    end.
    reflexivity.
  - intros lat1 lon1 lat2 lon2 d H. rewrite haversine_call_double in H.
    destruct (Double.haversine (Double.double lat1) _ _ _);
      cbv beta iota in H; [|discriminate H].
    injection H as <-. apply haversine_bounds.
  - intros df rd traj p H Hp. apply process_data_Ok in H.
    destruct H as (_ & ->). exact (trajectory_distance_bounds _ _ Hp).
Qed.


End Claims.

Lemma sample_trajectory_ok :
  process_data (sorter := numpy_quicksort) (libm := Double.glibc)
               sample_frame false
  = Ok sample_trajectory.
Proof.
  apply process_data_total;
    [vm_compute; discriminate | vm_compute; reflexivity].
Qed.

Lemma C3_distance_is_haversine_witness :
  process_data (sorter := numpy_quicksort) (libm := Double.glibc)
               sample_frame false
  = Ok sample_trajectory
  /\ (forall p, In p sample_trajectory -> point_sequence p = 1%Z ->
                distance_km p = 0%R)
  /\ (forall p,
         In p sample_trajectory -> (1 < point_sequence p)%Z ->
         exists q,
           In q sample_trajectory
           /\ point_sequence q = (point_sequence p - 1)%Z
           /\ distance_km p =
              haversine (Q2R (lat (point q))) (Q2R (lon (point q)))
                        (Q2R (lat (point p))) (Q2R (lon (point p)))).
Proof.
  split; [exact sample_trajectory_ok|].
  destruct (C3_distance_is_haversine numpy_quicksort Double.glibc
            sample_frame false
            sample_trajectory_ok) as (H1 & H2 & _).
  split; assumption.
Defined.


Lemma C10_distance_nonnegative_witness :
  Double.at_82_degrees Double.glibc
  /\ haversine_call (libm := Double.glibc) (-82) (-179) 82 1
     = Raise ValueError
  /\ process_data (sorter := numpy_quicksort) (libm := Double.glibc)
                  antipodal_frame false
     = Raise ValueError.
Proof.
  assert (H : Double.at_82_degrees Double.glibc)
    by (repeat split; vm_compute; reflexivity).
  split; [exact H|].
  exact (proj1 (@C10_distance_nonnegative numpy_quicksort Double.glibc) H).
Defined.

(** ** Duplicates and empty frames *)

Section Failures.

Context (sorter : SortValues) (libm : Double.Libm).

(** C8 (code defect).  With [remove_duplicates = true] two identical rows do
    not collapse to one point: [drop_duplicates] meets the list in the
    [coords] column, which was added before it is called, and raises
    [TypeError]; so does every frame with a row that survived parsing.
    With [remove_duplicates = false] both rows remain. *)
Theorem C8_drop_duplicates_raises :
  process_data [row_1359; row_1359] true = Raise TypeError
  /\ (forall df, parsed_rows df <> [] -> process_data df true = Raise TypeError)
  /\ (exists p q,
         process_data (libm := Double.glibc) [row_1359; row_1359] false
         = Ok [p; q]
         /\ raw (point p) = row_1359 /\ raw (point q) = row_1359).
Proof.
  assert (G : forall df, parsed_rows df <> [] ->
                         process_data df true = Raise TypeError).
  { intros df H. rewrite process_data_cases.
    destruct (parsed_rows df); [congruence | reflexivity]. }
  split; [|split].
  - apply G. vm_compute. discriminate.
  - exact G.
  - assert (Hne : parsed_rows [row_1359; row_1359] <> [])
      by (vm_compute; discriminate).
    pose proof (sort_values_perm (parsed_rows [row_1359; row_1359])) as Hp.
    pose proof (sort_values_length (parsed_rows [row_1359; row_1359])) as Hl.
    destruct (sort_values (parsed_rows [row_1359; row_1359]))
      as [|a [|b [|c l]]] eqn:E; try discriminate Hl.
    assert (Ha : In a (parsed_rows [row_1359; row_1359])).
    { apply Permutation_in with (l := [a; b]);
        [now symmetry | now left]. }
    assert (Hb : In b (parsed_rows [row_1359; row_1359])).
    { apply Permutation_in with (l := [a; b]);
        [now symmetry | right; now left]. }
    exists (point_at [a; b] 0 a), (point_at [a; b] 1 b).
    assert (Hr : haversine_returns (libm := Double.glibc) [a; b] = true).
    { vm_compute in Ha, Hb.
      destruct Ha as [<-|[<-|[]]], Hb as [<-|[<-|[]]];
        vm_compute; reflexivity. }
    split.
    + rewrite <- E in Hr.
      rewrite (@process_data_total sorter Double.glibc _ Hne Hr), E.
      reflexivity.
    + vm_compute in Ha, Hb.
      destruct Ha as [<-|[<-|[]]], Hb as [<-|[<-|[]]]; split; reflexivity.
Qed.

(** When some timestamp parses and every row is dropped all the same, the
    empty trajectory is returned and [create_map] reports it. *)
Lemma empty_trajectory_reported (rd : bool) :
  process_data [row_bad_position] rd = Ok []
  /\ main [row_bad_position] rd = Ok NoDataToPlot.
Proof.
  unfold main. now rewrite process_data_cases.
Qed.

(** C9 (code defect).  A frame without rows, and a frame in which no
    timestamp parses, do not come back as an empty trajectory: the
    [parsed_timestamp] column is then of dtype [object], the [.dt] accessor
    raises [AttributeError], [main] does not catch it and the "No data
    available to plot." branch of [create_map] is not reached. *)
Theorem C9_empty_frame_raises :
  (forall rd, process_data [] rd = Raise AttributeError
              /\ main [] rd = Raise AttributeError)
  /\ (forall rd, process_data [row_bad_timestamp] rd = Raise AttributeError
                 /\ main [row_bad_timestamp] rd = Raise AttributeError)
  /\ (forall df rd,
         (forall r, In r df -> parse_timestamp (timestamp r) = None) ->
         process_data df rd = Raise AttributeError
         /\ main df rd = Raise AttributeError).
Proof.
  assert (G : forall df rd,
             (forall r, In r df -> parse_timestamp (timestamp r) = None) ->
             process_data df rd = Raise AttributeError).
  { intros df rd H. rewrite process_data_cases.
    assert (E : dropna (with_timestamps df) = []).
    { unfold with_timestamps. induction df as [|r df IH]; [reflexivity|].
      simpl. rewrite (H r (or_introl eq_refl)).
      apply IH. intros r' Hr'. apply H. now right. }
    assert (Ep : parsed_rows df = []) by (unfold parsed_rows; now rewrite E).
    apply dropna_with_timestamps_nil in E. now rewrite Ep, E. }
  assert (G0 : forall rd, process_data [] rd = Raise AttributeError)
    by (intro rd; apply G; intros r []).
  repeat split.
  - apply G0.
  - unfold main. now rewrite G0.
  - now rewrite process_data_cases.
  - unfold main. now rewrite process_data_cases.
  - now apply G.
  - unfold main. now rewrite G.
Qed.

End Failures.

(** ** The matcher *)

Section Matcher.

Lemma in_one (p : ascii -> bool) (s w : str) (g : list str) (rest : str) :
  In (w, g, rest) (one p s) ->
  exists c, s = c :: rest /\ w = [c] /\ g = [] /\ p c = true.
Proof.
  destruct s as [|c s]; simpl; [tauto|].
  destruct (p c) eqn:E; simpl; [|tauto].
  intros [H|[]]. injection H as <- <- <-. eauto.
Qed.

Lemma in_star (p : ascii -> bool) (s w rest : str) :
  In (w, rest) (star p s) -> s = w ++ rest /\ forallb p w = true.
Proof.
  revert w. induction s as [|c s IH]; simpl; intro w.
  - intros [H|[]]. injection H as <- <-. auto.
  - destruct (p c) eqn:E.
    + rewrite in_app_iff, in_map_iff. intros [([w' r'] & H & Hin)|[H|[]]].
      * simpl in H. injection H as <- <-.
        destruct (IH _ Hin) as [-> Hw]. simpl. now rewrite E.
      * injection H as <- <-. auto.
    + intros [H|[]]. injection H as <- <-. auto.
Qed.

(** Every match the matcher lists is a match of the pattern. *)
Theorem matches_sound (r : regex) :
  forall s w g rest,
    In (w, g, rest) (matches r s) -> s = w ++ rest /\ lang r w g.
Proof.
  induction r as [|c|c|p|p|r1 IH1 r2 IH2|r1 IH1 r2 IH2|r IH];
    intros s w g rest; simpl.
  - intros [H|[]]. injection H as <- <- <-. split; [reflexivity|constructor].
  - intro H. apply in_one in H. destruct H as (x & -> & -> & -> & E).
    apply Ascii.eqb_eq in E. subst x. split; [reflexivity|constructor].
  - intro H. apply in_one in H. destruct H as (x & -> & -> & -> & E).
    apply Ascii.eqb_eq in E. split; [reflexivity | now constructor].
  - intro H. apply in_one in H. destruct H as (x & -> & -> & -> & E).
    split; [reflexivity | now constructor].
  - rewrite in_map_iff. intros ([w' r'] & H & Hin). simpl in H.
    injection H as <- <- <-. apply in_star in Hin. destruct Hin as [-> Hw].
    split; [reflexivity | now constructor].
  - rewrite in_flat_map. intros ([[w1 g1] s1] & H1 & H2).
    rewrite in_map_iff in H2. destruct H2 as ([[w2 g2] s2] & E & H2).
    injection E as <- <- <-.
    destruct (IH1 _ _ _ _ H1) as [-> L1].
    destruct (IH2 _ _ _ _ H2) as [-> L2].
    split; [now rewrite app_assoc | now constructor].
  - rewrite in_app_iff. intros [H|H].
    + destruct (IH1 _ _ _ _ H) as [-> L]. split; [reflexivity|].
      now apply lang_Alt_l.
    + destruct (IH2 _ _ _ _ H) as [-> L]. split; [reflexivity|].
      now apply lang_Alt_r.
  - rewrite in_map_iff. intros ([[w' g'] s'] & E & H).
    injection E as <- <- <-.
    destruct (IH _ _ _ _ H) as [-> L]. split; [reflexivity | now constructor].
Qed.

Lemma re_match_sound (r : regex) (s w : str) (g : list str) (rest : str) :
  re_match r s = Some (w, g, rest) -> s = w ++ rest /\ lang r w g.
Proof.
  unfold re_match. intro H. apply matches_sound.
  destruct (matches r s); [discriminate|].
  injection H as ->. now left.
Qed.

Lemma re_match_first (r : regex) (s : str) (h : hit) :
  first_hit r s h -> re_match r s = Some h.
Proof. intros [t H]. unfold re_match. now rewrite H. Qed.

(** How the first match is found, construct by construct. *)

Lemma first_Chr (c : ascii) (s : str) : first_hit (Chr c) (c :: s) ([c], [], s).
Proof. exists []. simpl. now rewrite Ascii.eqb_refl. Qed.

Lemma first_Cls (p : ascii -> bool) (c : ascii) (s : str) :
  p c = true -> first_hit (Cls p) (c :: s) ([c], [], s).
Proof. intro H. exists []. simpl. now rewrite H. Qed.

(** The star takes the whole run when the text after it cannot extend
    it. *)
Lemma first_Star (p : ascii -> bool) (w s : str) :
  forallb p w = true -> next_not p s ->
  first_hit (Star p) (w ++ s) (w, [], s).
Proof.
  intros Hw Hs. unfold first_hit. simpl.
  assert (G : exists t, star p (w ++ s) = (w, s) :: t).
  { induction w as [|c w IH]; simpl in *.
    - destruct s as [|c s]; simpl; [now exists []|].
      unfold next_not in Hs. rewrite Hs. now exists [].
    - apply andb_prop in Hw. destruct Hw as [Hc Hw]. rewrite Hc.
      destruct (IH Hw) as [t ->]. simpl. eauto. }
  destruct G as [t ->]. simpl. eauto.
Qed.

Lemma first_Seq (r1 r2 : regex) (s w1 : str) (g1 : list str) (s1 w2 : str)
      (g2 : list str) (s2 : str) :
  first_hit r1 s (w1, g1, s1) -> first_hit r2 s1 (w2, g2, s2) ->
  first_hit (Seq r1 r2) s (w1 ++ w2, g1 ++ g2, s2).
Proof.
  intros [t1 H1] [t2 H2]. unfold first_hit. simpl.
  rewrite H1. simpl. rewrite H2. simpl. eauto.
Qed.

Lemma first_Grp (r : regex) (s w : str) (g : list str) (s' : str) :
  first_hit r s (w, g, s') -> first_hit (Grp r) s (w, w :: g, s').
Proof. intros [t H]. unfold first_hit. simpl. rewrite H. simpl. eauto. Qed.

Lemma first_Lit (w s : str) : first_hit (Lit w) (w ++ s) (w, [], s).
Proof.
  induction w as [|c w IH]; simpl; [now exists []|].
  apply (first_Seq (r1 := Chr c) (r2 := Lit w) (w1 := [c]) (g1 := [])
                   (first_Chr c (w ++ s)) IH).
Qed.

Lemma first_Plus (p : ascii -> bool) (w s : str) :
  w <> [] -> forallb p w = true -> next_not p s ->
  first_hit (Plus p) (w ++ s) (w, [], s).
Proof.
  intros Hne Hw Hs. destruct w as [|c w]; [congruence|].
  simpl in Hw. apply andb_prop in Hw. destruct Hw as [Hc Hw].
  apply (first_Seq (r1 := Cls p) (r2 := Star p) (w1 := [c]) (g1 := [])
                   (@first_Cls p c (w ++ s) Hc) (@first_Star p w s Hw Hs)).
Qed.

End Matcher.

(** ** The position pattern *)

Ltac ascii_cases c :=
  destruct c as [[] [] [] [] [] [] [] []]; vm_compute; congruence.

Lemma space_not_num (c : ascii) : is_space c = true -> num_char c = false.
Proof. ascii_cases c. Qed.

Lemma num_not_space (c : ascii) : num_char c = true -> is_space c = false.
Proof. ascii_cases c. Qed.

Lemma next_not_space_number (g s : str) :
  number_text g -> next_not is_space (g ++ s).
Proof.
  intros [Hne Hg]. destruct g as [|c g]; [congruence|]. simpl in *.
  apply andb_prop in Hg. now apply num_not_space.
Qed.

Lemma next_not_num_spaces (ws s : str) :
  spaces ws -> next_not num_char s -> next_not num_char (ws ++ s).
Proof.
  intros Hws Hs. destruct ws as [|c ws]; [exact Hs|]. simpl.
  unfold spaces in Hws. simpl in Hws. apply andb_prop in Hws.
  now apply space_not_num.
Qed.

(** The pattern matches every string of the shape, and captures the two
    number texts. *)
Lemma position_shape_first (s g1 g2 rest : str) :
  position_shape s g1 g2 rest ->
  exists w, first_hit position_re s (w, [g1; g2], rest).
Proof.
  intros (ws1 & ws2 & ws3 & ws4 & -> & H1 & H2 & H3 & H3' & H4 & Hg1 & Hg2).
  pose proof (first_Chr ")" rest) as F9.
  pose proof (@first_Star is_space ws4 (")"%char :: rest) H4 eq_refl) as F8.
  pose proof (@first_Seq _ _ _ _ _ _ _ _ _ F8 F9) as F89. clear F8 F9.
  assert (N2 : next_not num_char (ws4 ++ ")"%char :: rest))
    by (apply next_not_num_spaces; [assumption | reflexivity]).
  pose proof (@first_Grp _ _ _ _ _
                (@first_Plus num_char g2 _ (proj1 Hg2) (proj2 Hg2) N2)) as F7.
  pose proof (@first_Seq _ _ _ _ _ _ _ _ _ F7 F89) as F79. clear F7 F89.
  pose proof (@first_Plus is_space ws3 _ H3' H3
                (@next_not_space_number g2 (ws4 ++ ")"%char :: rest) Hg2))
    as F6.
  pose proof (@first_Seq _ _ _ _ _ _ _ _ _ F6 F79) as F69. clear F6 F79.
  assert (N1 : next_not num_char (ws3 ++ g2 ++ ws4 ++ ")"%char :: rest)).
  { destruct ws3 as [|c ws3]; [congruence|]. simpl.
    unfold spaces in H3. simpl in H3. apply andb_prop in H3.
    now apply space_not_num. }
  pose proof (@first_Grp _ _ _ _ _
                (@first_Plus num_char g1 _ (proj1 Hg1) (proj2 Hg1) N1)) as F5.
  pose proof (@first_Seq _ _ _ _ _ _ _ _ _ F5 F69) as F59. clear F5 F69.
  pose proof (@first_Star is_space ws2 _ H2
                (@next_not_space_number g1
                   (ws3 ++ g2 ++ ws4 ++ ")"%char :: rest) Hg1)) as F4.
  pose proof (@first_Seq _ _ _ _ _ _ _ _ _ F4 F59) as F49. clear F4 F59.
  pose proof (@first_Seq _ _ _ _ _ _ _ _ _
                (first_Chr "(" (ws2 ++ g1 ++ ws3 ++ g2 ++ ws4
                                    ++ ")"%char :: rest)) F49) as F39.
  clear F49.
  pose proof (@first_Star is_space ws1
                ("("%char :: ws2 ++ g1 ++ ws3 ++ g2 ++ ws4
                     ++ ")"%char :: rest) H1 eq_refl) as F2.
  pose proof (@first_Seq _ _ _ _ _ _ _ _ _ F2 F39) as F29. clear F2 F39.
  pose proof (@first_Seq _ _ _ _ _ _ _ _ _
                (first_Lit (s2l "POINT")
                   (ws1 ++ "("%char :: ws2 ++ g1 ++ ws3 ++ g2 ++ ws4
                        ++ ")"%char :: rest)) F29) as F19.
  clear F29.
  eexists. exact F19.
Qed.

Ltac lang_inv :=
  repeat match goal with
    | H : lang Eps _ _ |- _ => inversion H; subst; clear H
    | H : lang (Chr _) _ _ |- _ => inversion H; subst; clear H
    | H : lang (ChrI _) _ _ |- _ => inversion H; subst; clear H
    | H : lang (Cls _) _ _ |- _ => inversion H; subst; clear H
    | H : lang (Star _) _ _ |- _ => inversion H; subst; clear H
    | H : lang (Seq _ _) _ _ |- _ => inversion H; subst; clear H
    | H : lang (Alt _ _) _ _ |- _ => inversion H; subst; clear H
    | H : lang (Grp _) _ _ |- _ => inversion H; subst; clear H
    end.

Lemma lang_Plus_inv (p : ascii -> bool) (w : str) (g : list str) :
  lang (Plus p) w g -> g = [] /\ w <> [] /\ forallb p w = true.
Proof.
  unfold Plus. intro H. lang_inv. simpl.
  repeat split; [discriminate|].
  apply andb_true_intro. auto.
Qed.

(** Whatever the pattern matches has the shape. *)
Lemma position_re_shape (s w : str) (g : list str) (rest : str) :
  re_match position_re s = Some (w, g, rest) ->
  exists g1 g2, g = [g1; g2] /\ position_shape s g1 g2 rest.
Proof.
  intro H. apply re_match_sound in H. destruct H as [-> H].
  unfold position_re in H. cbn [Lit s2l list_ascii_of_string] in H.
  lang_inv.
  repeat match goal with
    | H : lang (Plus _) _ _ |- _ =>
        apply lang_Plus_inv in H; destruct H as (-> & ? & ?)
    end.
  simpl. do 2 eexists. split; [reflexivity|].
  match goal with
  | |- position_shape (_ :: _ :: _ :: _ :: _ ::
                         (?a ++ _ :: ?b ++ _ ++ ?c ++ _ ++ ?d ++ _) ++ _)
                      _ _ _ =>
      exists a, b, c, d
  end.
  repeat split; try assumption.
  simpl. repeat (rewrite <- app_assoc; simpl). reflexivity.
Qed.

(** ** [float] *)

Lemma span_digits_spec (w d r : str) :
  PyFloat.span_digits w = (d, r) ->
  w = d ++ r /\ forallb is_digit d = true /\ next_not is_digit r.
Proof.
  revert d r. induction w as [|c w IH]; simpl; intros d r H.
  - injection H as <- <-. simpl. auto.
  - destruct (is_digit c) eqn:E.
    + destruct (PyFloat.span_digits w) as [d' r'].
      injection H as <- <-. destruct (IH _ _ eq_refl) as (-> & Hd & Hr).
      simpl. rewrite E. auto.
    + injection H as <- <-. simpl. auto.
Qed.

Lemma span_digits_app (d r : str) :
  forallb is_digit d = true -> next_not is_digit r ->
  PyFloat.span_digits (d ++ r) = (d, r).
Proof.
  intros Hd Hr. induction d as [|c d IH]; simpl in *.
  - destruct r as [|c r]; [reflexivity|]. simpl in *. now rewrite Hr.
  - apply andb_prop in Hd. destruct Hd as [Hc Hd].
    now rewrite Hc, (IH Hd).
Qed.

Lemma span_digits_all (d : str) :
  forallb is_digit d = true -> PyFloat.span_digits d = (d, []).
Proof.
  intro H. pose proof (@span_digits_app d [] H I) as E.
  now rewrite app_nil_r in E.
Qed.

Lemma unsigned_decimal_shape (w : str) (q : Q) :
  PyFloat.unsigned_decimal w = Some q ->
  exists ip point fp,
    w = ip ++ point ++ fp
    /\ (point = [] /\ fp = [] \/ point = s2l ".")
    /\ forallb is_digit ip = true /\ forallb is_digit fp = true
    /\ (ip ++ fp)%list <> [].
Proof.
  unfold PyFloat.unsigned_decimal.
  destruct (PyFloat.span_digits w) as [ip r] eqn:E.
  apply span_digits_spec in E. destruct E as (-> & Hip & Hr).
  destruct r as [|c r].
  - destruct ip as [|c ip]; [discriminate|]. intros _.
    exists (c :: ip), [], []. rewrite !app_nil_r.
    repeat split; auto. discriminate.
  - destruct (Ascii.eqb_spec c ".") as [->|]; [|discriminate].
    destruct (PyFloat.span_digits r) as [fp r''] eqn:E.
    apply span_digits_spec in E. destruct E as (-> & Hfp & _).
    destruct r''; [|discriminate].
    destruct (ip ++ fp)%list eqn:E'; [discriminate|]. intros _.
    exists ip, (s2l "."), fp. rewrite app_nil_r.
    repeat split; auto. rewrite E'. discriminate.
Qed.

Lemma first_digit_not_minus (c : ascii) : is_digit c = true -> c <> "-"%char.
Proof. ascii_cases c. Qed.

Lemma unsigned_decimal_accepts (ip point fp : str) :
  (point = [] /\ fp = [] \/ point = s2l ".") ->
  forallb is_digit ip = true -> forallb is_digit fp = true ->
  (ip ++ fp)%list <> [] ->
  exists q, PyFloat.unsigned_decimal (ip ++ point ++ fp) = Some q.
Proof.
  intros Hp Hip Hfp Hne. unfold PyFloat.unsigned_decimal.
  destruct Hp as [[-> ->]| ->].
  - simpl. rewrite app_nil_r in *. rewrite (span_digits_all ip Hip).
    destruct ip; [congruence | eauto].
  - simpl. rewrite span_digits_app by (simpl; auto).
    simpl. rewrite (span_digits_all fp Hfp).
    destruct (ip ++ fp)%list eqn:E; [congruence | eauto].
Qed.

(** [float] accepts exactly the decimal texts. *)
Lemma float_accepts (w : str) :
  (exists q, PyFloat.float w = Some q) <-> decimal_text w.
Proof.
  split.
  - intros [q H]. unfold PyFloat.float in H.
    destruct w as [|c w]; [discriminate|].
    destruct (Ascii.eqb_spec c "-") as [->|Hc].
    + destruct (PyFloat.unsigned_decimal w) as [q'|] eqn:E; [|discriminate].
      apply unsigned_decimal_shape in E.
      destruct E as (ip & point & fp & -> & Hp & Hip & Hfp & Hne).
      exists (s2l "-"), ip, point, fp. repeat split; auto.
    + apply unsigned_decimal_shape in H.
      destruct H as (ip & point & fp & -> & Hp & Hip & Hfp & Hne).
      exists [], ip, point, fp. repeat split; auto.
  - intros (sign & ip & point & fp & -> & Hs & Hp & Hip & Hfp & Hne).
    destruct (@unsigned_decimal_accepts ip point fp Hp Hip Hfp Hne) as [q Hq].
    unfold PyFloat.float. destruct Hs as [->| ->].
    + simpl. destruct (ip ++ point ++ fp)%list as [|c w] eqn:E.
      { destruct ip; [|discriminate]. destruct Hp as [[-> ->]| ->];
          [simpl in Hne; congruence | discriminate]. }
      destruct (Ascii.eqb_spec c "-") as [->|Hc]; [|eauto].
      exfalso. destruct ip as [|c' ip].
      * destruct Hp as [[-> ->]| ->]; simpl in E; discriminate.
      * simpl in E, Hip. injection E as -> _.
        apply andb_prop in Hip. destruct Hip as [Hd _].
        now apply first_digit_not_minus in Hd.
    + simpl. rewrite Hq. simpl. eauto.
Qed.

(** ** [extract_coordinates] *)

(** The first number of the text is the longitude, the second the
    latitude; the value returned has them the other way round. *)
Lemma extract_coordinates_iff (s : str) (la lo : Q) :
  extract_coordinates_l s = Some (la, lo) <->
  exists g1 g2 rest,
    position_shape s g1 g2 rest
    /\ PyFloat.float g1 = Some lo /\ PyFloat.float g2 = Some la.
Proof.
  unfold extract_coordinates_l. split.
  - destruct (re_match position_re s) as [[[w g] rest]|] eqn:E; [|discriminate].
    destruct (position_re_shape _ E) as (g1 & g2 & -> & Hs).
    destruct (PyFloat.float g1) as [lon|] eqn:E1; [|discriminate].
    destruct (PyFloat.float g2) as [lat|] eqn:E2; [|discriminate].
    intro H. injection H as <- <-. exists g1, g2, rest. auto.
  - intros (g1 & g2 & rest & Hs & H1 & H2).
    destruct (position_shape_first Hs) as [w Hw].
    rewrite (re_match_first Hw), H1, H2. reflexivity.
Qed.

(** [None] is returned exactly on the strings that are not accepted. *)
Lemma extract_coordinates_None_iff (s : str) :
  extract_coordinates_l s = None <-> ~ position_accepted s.
Proof.
  split.
  - intros H (g1 & g2 & rest & Hs & H1 & H2).
    apply float_accepts in H1, H2. destruct H1 as [lo H1], H2 as [la H2].
    assert (E : extract_coordinates_l s = Some (la, lo))
      by (apply extract_coordinates_iff; eauto 6).
    congruence.
  - intro H. destruct (extract_coordinates_l s) as [[la lo]|] eqn:E;
      [|reflexivity].
    exfalso. apply H. apply extract_coordinates_iff in E.
    destruct E as (g1 & g2 & rest & Hs & H1 & H2).
    exists g1, g2, rest. split; [assumption|].
    split; apply float_accepts; eauto.
Qed.

(** ** The rows that reach the sort *)

Lemma In_dropna {A B} (df : list (A * option B)) (r : A) (v : B) :
  In (r, v) (dropna df) <-> In (r, Some v) df.
Proof.
  induction df as [|[r' [v'|]] df IH]; simpl; [tauto| |].
  - rewrite IH. split; (intros [H|H]; [left; congruence | now right]).
  - rewrite IH. split; [now right | intros [H|H]; [discriminate | assumption]].
Qed.

Lemma In_parsed_rows (df : list RawRow) (p : ParsedRow) :
  In p (parsed_rows df) <->
  In (raw p) df
  /\ parse_timestamp (timestamp (raw p)) = Some (parsed_timestamp p)
  /\ extract_coordinates (position (raw p)) = Some (coords p).
Proof.
  unfold parsed_rows, with_coords, with_timestamps.
  rewrite in_map_iff. split.
  - intros ([[r t] c] & <- & H). simpl.
    apply In_dropna in H. rewrite combine_map_r, in_map_iff in H.
    destruct H as ([r' t'] & E & H). injection E as -> -> E. simpl in E.
    apply In_dropna in H. rewrite combine_map_r, in_map_iff in H.
    destruct H as (r' & E' & H). injection E' as -> E'. auto.
  - intros (H1 & H2 & H3). destruct p as [r t c]. simpl in *.
    exists ((r, t), c). split; [reflexivity|].
    apply In_dropna. rewrite combine_map_r, in_map_iff.
    exists (r, t). simpl. split; [now rewrite H3|].
    apply In_dropna. rewrite combine_map_r, in_map_iff.
    exists r. split; [now rewrite H2 | assumption].
Qed.

(** C5.  A position string of the shape POINT (<lon> <lat>) whose two
    numbers [float] accepts gives the pair (latitude, longitude): the
    number written first comes back second.  Conversely whatever
    [extract_coordinates] returns was written in the other order in the
    string.  "POINT (-122.4194 37.7749)" gives latitude 37.7749 and
    longitude -122.4194. *)
Theorem C5_latitude_first :
  (forall lon_text lat_text lon lat,
      PyFloat.float lon_text = Some lon ->
      PyFloat.float lat_text = Some lat ->
      extract_coordinates_l
        (s2l "POINT (" ++ lon_text ++ s2l " " ++ lat_text ++ s2l ")")
      = Some (lat, lon))
  /\ (forall s lat lon,
         extract_coordinates_l s = Some (lat, lon) ->
         exists lon_text lat_text rest,
           position_shape s lon_text lat_text rest
           /\ PyFloat.float lon_text = Some lon
           /\ PyFloat.float lat_text = Some lat)
  /\ extract_coordinates "POINT (-122.4194 37.7749)"
     = Some (37.7749, -122.4194)%Q.
Proof.
  split; [|split].
  - intros lon_text lat_text lon lat H1 H2.
    apply extract_coordinates_iff. exists lon_text, lat_text, [].
    split; [|auto].
    assert (N : forall w q, PyFloat.float w = Some q -> number_text w).
    { intros w q H.
      assert (D : decimal_text w) by (apply float_accepts; eauto).
      destruct D as (sg & ip & pt & fp & -> & Hs & Hp & Hip & Hfp & Hne).
      assert (Hd : forall d, forallb is_digit d = true ->
                             forallb num_char d = true).
      { intros d Hd. rewrite forallb_forall in *. intros c Hc.
        unfold num_char. rewrite (Hd c Hc).
        now destruct (Ascii.eqb c "-"). }
      split.
      - destruct sg; [|discriminate]. destruct ip; [|discriminate].
        destruct Hp as [[-> ->]| ->]; [simpl in Hne; congruence | discriminate].
      - rewrite !forallb_app, (Hd _ Hip), (Hd _ Hfp).
        destruct Hs as [->| ->], Hp as [[-> ->]| ->]; reflexivity. }
    exists (s2l " "), [], (s2l " "), [].
    repeat split; eauto using N; try discriminate.
    + now destruct (N _ _ H1).
    + now destruct (N _ _ H1).
    + now destruct (N _ _ H2).
    + now destruct (N _ _ H2).
  - intros s lat lon H. now apply extract_coordinates_iff.
  - reflexivity.
Qed.

Lemma C5_latitude_first_witness :
  extract_coordinates_l
    (s2l "POINT (" ++ s2l "2.5" ++ s2l " " ++ s2l "-48" ++ s2l ")")
  = Some ((-48)%Q, 2.5%Q).
Proof.
  apply (proj1 C5_latitude_first); reflexivity.
Defined.

(** C7, as amended.  A position string that does not start with
    [POINT], blanks, [(], blanks, a decimal text, at least one blank, a
    decimal text, blanks and [)] gives no coordinates, and no point of a
    trajectory comes from a row with such a position.  A decimal text is an
    optional minus sign and digits with an optional point (a digit
    somewhere); what follows the closing parenthesis is not looked at. *)
Theorem C7_position_failures (position_str : string) :
  ~ position_accepted (s2l position_str) ->
  extract_coordinates position_str = None
  /\ forall (sorter : SortValues) (libm : Double.Libm)
            df remove_duplicates traj p,
      process_data df remove_duplicates = Ok traj ->
      In p traj -> position (raw (point p)) <> position_str.
Proof.
  intro H. assert (E : extract_coordinates position_str = None)
    by now apply extract_coordinates_None_iff.
  split; [exact E|].
  intros sorter libm df rd traj p Ht Hp Hpos.
  apply process_data_Ok in Ht. destruct Ht as (_ & ->).
  assert (Hin : In (point p) (sort_values (parsed_rows df))).
  { rewrite <- (map_point_trajectory (sort_values (parsed_rows df))).
    now apply in_map. }
  apply Permutation_in with (l' := parsed_rows df) in Hin;
    [|symmetry; apply sort_values_perm].
  apply In_parsed_rows in Hin. destruct Hin as (_ & _ & Hc).
  rewrite Hpos in Hc. congruence.
Qed.

Lemma C7_position_failures_witness :
  extract_coordinates "POINT (+1 2)" = None
  /\ forall (sorter : SortValues) (libm : Double.Libm)
            df remove_duplicates traj p,
      process_data df remove_duplicates = Ok traj ->
      In p traj -> position (raw (point p)) <> "POINT (+1 2)"%string.
Proof.
  apply C7_position_failures.
  apply extract_coordinates_None_iff. reflexivity.
Defined.

(** C7 as stated fails: "POINT (1 2) trailing" is not of the shape
    POINT (<lon> <lat>), and yet it gives coordinates, because [re.match]
    only looks for the pattern at the start of the string. *)
Lemma C7_trailing_text_counterexample :
  spec_position_grammar "POINT (1 2) trailing" = false
  /\ extract_coordinates "POINT (1 2) trailing" = Some (2, 1)%Q.
Proof. split; reflexivity. Qed.

(** ** The timestamp pattern *)

Section TimestampPattern.

Import Strptime.

Lemma range_0_1 c : in_range "0" "1" c = true -> is_digit c = true.
Proof. ascii_cases c. Qed.
Lemma range_1_2 c : in_range "1" "2" c = true -> is_digit c = true.
Proof. ascii_cases c. Qed.
Lemma range_1_9 c : in_range "1" "9" c = true -> is_digit c = true.
Proof. ascii_cases c. Qed.
Lemma range_0_3 c : in_range "0" "3" c = true -> is_digit c = true.
Proof. ascii_cases c. Qed.
Lemma range_0_5 c : in_range "0" "5" c = true -> is_digit c = true.
Proof. ascii_cases c. Qed.
Lemma range_0_9 c : in_range "0" "9" c = true -> is_digit c = true.
Proof. ascii_cases c. Qed.

Ltac digits_solve :=
  unfold digits_text; simpl; split; [lia|];
  repeat match goal with
    | |- (_ && _)%bool = true => apply andb_true_intro; split
    end;
  first [ reflexivity
        | auto using range_0_1, range_1_2, range_1_9, range_0_3, range_0_5,
            range_0_9 ].

Lemma lang_re_b w g :
  lang re_b w g -> g = [w] /\ In (map lower w) (map s2l a_month).
Proof.
  intro H. cbv [re_b a_month removelast fold_right LitI s2l
                list_ascii_of_string] in H.
  lang_inv; (split; [reflexivity|]); simpl;
    repeat match goal with E : lower _ = _ |- _ => rewrite E; clear E end;
    tauto.
Qed.

Lemma lang_re_d w g :
  lang re_d w g ->
  g = [w]
  /\ (digits_text 1 2 w \/ exists c, w = [" "%char; c] /\ is_digit c = true).
Proof.
  intro H. unfold re_d in H.
  lang_inv; (split; [reflexivity|]);
    try (left; digits_solve; fail).
  right. eexists. split; [reflexivity|]. now apply range_1_9.
Qed.

Lemma lang_re_Y w g : lang re_Y w g -> g = [w] /\ digits_text 4 4 w.
Proof.
  intro H. unfold re_Y in H. lang_inv. split; [reflexivity | digits_solve].
Qed.

Lemma lang_re_H w g : lang re_H w g -> g = [w] /\ digits_text 1 2 w.
Proof.
  intro H. unfold re_H in H.
  lang_inv; (split; [reflexivity | digits_solve]).
Qed.

Lemma lang_re_M w g : lang re_M w g -> g = [w] /\ digits_text 1 2 w.
Proof.
  intro H. unfold re_M in H.
  lang_inv; (split; [reflexivity | digits_solve]).
Qed.

Lemma lang_re_S w g : lang re_S w g -> g = [w] /\ digits_text 1 2 w.
Proof.
  intro H. unfold re_S in H.
  lang_inv; (split; [reflexivity | digits_solve]).
Qed.

Lemma lang_re_f w g : lang re_f w g -> g = [w] /\ digits_text 1 6 w.
Proof.
  intro H. cbv [re_f Opt] in H.
  lang_inv; (split; [reflexivity | digits_solve]).
Qed.

(** Whatever [strptime] accepts has the shape. *)
Lemma strptime_shape (s : str) (dt : datetime) :
  strptime s = Some dt -> timestamp_shape s.
Proof.
  unfold strptime.
  destruct (re_match format_re s) as [[[w g] rest]|] eqn:E; [|discriminate].
  apply re_match_sound in E. destruct E as [-> L].
  intro H.
  assert (rest = []) as ->.
  { destruct g as [|? [|? [|? [|? [|? [|? [|? [|]]]]]]]]; try discriminate.
    destruct rest; [reflexivity | discriminate]. }
  clear H. rewrite app_nil_r. unfold format_re in L.
  lang_inv.
  repeat match goal with
    | H : lang (Plus _) _ _ |- _ =>
        apply lang_Plus_inv in H; destruct H as (-> & ? & ?)
    end.
  repeat match goal with
    | H : lang re_b _ _ |- _ => apply lang_re_b in H; destruct H as [-> ?]
    | H : lang re_d _ _ |- _ => apply lang_re_d in H; destruct H as [-> ?]
    | H : lang re_Y _ _ |- _ => apply lang_re_Y in H; destruct H as [-> ?]
    | H : lang re_H _ _ |- _ => apply lang_re_H in H; destruct H as [-> ?]
    | H : lang re_M _ _ |- _ => apply lang_re_M in H; destruct H as [-> ?]
    | H : lang re_S _ _ |- _ => apply lang_re_S in H; destruct H as [-> ?]
    | H : lang re_f _ _ |- _ => apply lang_re_f in H; destruct H as [-> ?]
    end.
  match goal with
  | |- timestamp_shape
         (?b ++ ?w1 ++ ?d ++ _ ++ ?w2 ++ ?Y ++ ?w3 ++ _ ++ ?w4 ++ ?H ++ _
             ++ ?M ++ _ ++ ?S ++ _ ++ ?f) =>
      exists b, w1, d, w2, Y, w3, w4, H, M, S, f
  end.
  unfold spaces.
  repeat match goal with |- _ /\ _ => split end; try assumption.
  reflexivity.
Qed.

End TimestampPattern.

(** ** Rows with a timestamp that does not parse *)

Lemma dropna_with_timestamps_filter (keep : RawRow -> bool)
      (df : list RawRow) :
  (forall r, In r df -> keep r = false ->
             parse_timestamp (timestamp r) = None) ->
  dropna (with_timestamps (filter keep df)) = dropna (with_timestamps df).
Proof.
  unfold with_timestamps. induction df as [|r df IH]; intro H; simpl;
    [reflexivity|].
  assert (IH' := IH (fun r' Hr => H r' (or_intror Hr))).
  destruct (keep r) eqn:E; simpl.
  - destruct (parse_timestamp (timestamp r)); now rewrite IH'.
  - now rewrite (H r (or_introl eq_refl) E).
Qed.

(** Taking such rows out of the frame beforehand changes nothing. *)
Lemma process_data_filter (sorter : SortValues) (libm : Double.Libm)
      (keep : RawRow -> bool)
      (df : list RawRow) (rd : bool) :
  (forall r, In r df -> keep r = false ->
             parse_timestamp (timestamp r) = None) ->
  process_data (filter keep df) rd = process_data df rd.
Proof.
  intro H. pose proof (dropna_with_timestamps_filter keep df H) as E.
  rewrite !process_data_cases.
  assert (Ep : parsed_rows (filter keep df) = parsed_rows df)
    by (unfold parsed_rows; now rewrite E).
  assert (Ed : infer_dtype (map (fun r => parse_timestamp (timestamp r))
                                (filter keep df))
               = infer_dtype (map (fun r => parse_timestamp (timestamp r)) df)).
  { destruct (infer_dtype (map _ df)) eqn:Ed.
    - destruct (infer_dtype (map _ (filter keep df))) eqn:Ef; [reflexivity|].
      apply dropna_with_timestamps_nil in Ef. rewrite E in Ef.
      apply dropna_with_timestamps_nil in Ef. congruence.
    - apply dropna_with_timestamps_nil in Ed. rewrite <- E in Ed.
      now apply dropna_with_timestamps_nil in Ed. }
  now rewrite Ep, Ed.
Qed.

(** C6, as amended.  A timestamp string that is not made of a month
    abbreviation (any letter case), blanks, a day of one or two characters,
    a comma, blanks, four digits, blanks, [@], blanks, hour, minute and
    second of one or two digits each separated by colons, a point and one
    to six digits, is not parsed: [parse_timestamp] returns [None] without
    raising.  Rows that carry it are dropped and the other rows are
    processed as if those rows had not been in the input. *)
Theorem C6_timestamp_failures (timestamp_str : string) :
  ~ timestamp_shape (s2l timestamp_str) ->
  parse_timestamp timestamp_str = None
  /\ forall (sorter : SortValues) (libm : Double.Libm) df remove_duplicates,
      process_data
        (filter (fun r => negb (String.eqb (timestamp r) timestamp_str)) df)
        remove_duplicates
      = process_data df remove_duplicates.
Proof.
  intro H.
  assert (E : parse_timestamp timestamp_str = None).
  { destruct (parse_timestamp timestamp_str) as [dt|] eqn:E; [|reflexivity].
    exfalso. apply H. exact (strptime_shape _ E). }
  split; [exact E|].
  intros sorter libm df rd. apply process_data_filter.
  intros r _ Hr. apply negb_false_iff, String.eqb_eq in Hr. now rewrite Hr.
Qed.

Lemma iso_timestamp_no_shape :
  ~ timestamp_shape (s2l "2024-06-28 13:59:38").
Proof.
  intros (b & ws1 & d & ws2 & Y & ws3 & ws4 & H & M & S & f & Hs & Hb & _).
  simpl in Hb. cbv [s2l list_ascii_of_string] in Hs.
  repeat (destruct Hb as [Hb|Hb];
          [ destruct b as [|c1 [|c2 [|c3 [|c4 b]]]]; try discriminate Hb;
            simpl in Hs; injection Hs as <- <- <- _; discriminate Hb | ]).
  exact Hb.
Qed.

Lemma C6_timestamp_failures_witness :
  parse_timestamp "2024-06-28 13:59:38" = None
  /\ forall (sorter : SortValues) (libm : Double.Libm) df remove_duplicates,
      process_data
        (filter (fun r => negb (String.eqb (timestamp r)
                                           "2024-06-28 13:59:38")) df)
        remove_duplicates
      = process_data df remove_duplicates.
Proof. exact (C6_timestamp_failures _ iso_timestamp_no_shape). Defined.

(** C6 as stated fails: "Jun 28, 2024 @ 13:59:38.8" has one digit of
    fraction, not three, and is parsed all the same, to 13:59:38.800000 :
    [%f] takes one to six digits. *)
Lemma C6_short_fraction_counterexample :
  spec_timestamp_shape "Jun 28, 2024 @ 13:59:38.8" = false
  /\ parse_timestamp "Jun 28, 2024 @ 13:59:38.8"
     = Some (mk_datetime 2024 6 28 13 59 38 800000).
Proof. split; reflexivity. Qed.

(** * Further properties *)

(** ** [haversine] *)

Section HaversineFacts.

Local Open Scope R_scope.

(** X1.  [haversine] does not depend on the direction of travel: the
    distance from A to B is the distance from B to A. *)
Theorem X1_haversine_symmetric (lat1 lon1 lat2 lon2 : R) :
  haversine lat1 lon1 lat2 lon2 = haversine lat2 lon2 lat1 lon1.
Proof.
  unfold haversine.
  replace ((radians lat1 - radians lat2) / 2)
    with (- ((radians lat2 - radians lat1) / 2)) by lra.
  replace ((radians lon1 - radians lon2) / 2)
    with (- ((radians lon2 - radians lon1) / 2)) by lra.
  rewrite !sin_neg.
  replace ((- sin ((radians lat2 - radians lat1) / 2)) ^ 2
           + cos (radians lat2) * cos (radians lat1)
             * (- sin ((radians lon2 - radians lon1) / 2)) ^ 2)
    with (sin ((radians lat2 - radians lat1) / 2) ^ 2
          + cos (radians lat1) * cos (radians lat2)
            * sin ((radians lon2 - radians lon1) / 2) ^ 2) by ring.
  reflexivity.
Qed.

Lemma atan2_0_1 : atan2 0 1 = 0.
Proof.
  unfold atan2. destruct (total_order_T 1 0) as [[H|H]|H]; try lra.
  replace (0 / 1) with 0 by lra. apply atan_0.
Qed.

Lemma haversine_same_point (lat lon : R) : haversine lat lon lat lon = 0.
Proof.
  unfold haversine.
  replace (radians lat - radians lat) with 0 by lra.
  replace (radians lon - radians lon) with 0 by lra.
  replace (0 / 2) with 0 by lra. rewrite sin_0.
  replace (0 ^ 2 + cos (radians lat) * cos (radians lat) * 0 ^ 2)
    with 0 by ring.
  rewrite sqrt_0, Rminus_0_r, sqrt_1, atan2_0_1. ring.
Qed.

(** The angle of the point [(cos h, sin h)] of the first quadrant is
    [h]. *)
Lemma atan2_sin_cos (h : R) :
  0 <= h <= PI / 2 -> atan2 (sin h) (cos h) = h.
Proof.
  intros [H0 H1]. unfold atan2. destruct H1 as [H1|H1].
  - assert (Hc : 0 < cos h) by (apply cos_gt_0; lra).
    destruct (total_order_T (cos h) 0) as [[H|H]|H]; try lra.
    fold (tan h). apply atan_tan. lra.
  - subst h. rewrite cos_PI2, sin_PI2.
    destruct (total_order_T 0 0) as [[H|H]|H]; try lra.
    destruct (total_order_T 1 0) as [[H'|H']|H']; lra.
Qed.

(** With [a = sin^2 h] for a half angle [h] of the first quadrant the
    formula gives the radius times the full angle. *)
Lemma haversine_of_half_angle (a h : R) :
  0 <= h <= PI / 2 -> a = sin h ^ 2 ->
  6371 * (2 * atan2 (sqrt a) (sqrt (1 - a))) = 6371 * (2 * h).
Proof.
  intros Hh ->.
  assert (Hs : 0 <= sin h) by (apply sin_ge_0; lra).
  assert (Hc : 0 <= cos h) by (apply cos_ge_0; lra).
  replace (sin h ^ 2) with (Rsqr (sin h)) by (unfold Rsqr; ring).
  rewrite sqrt_Rsqr by assumption.
  replace (1 - Rsqr (sin h)) with (Rsqr (cos h))
    by (pose proof (sin2_cos2 h); lra).
  rewrite sqrt_Rsqr by assumption.
  now rewrite atan2_sin_cos.
Qed.

Lemma sin_sqr_abs (x : R) : sin (x / 2) ^ 2 = sin (Rabs x / 2) ^ 2.
Proof.
  unfold Rabs. destruct (Rcase_abs x); [|reflexivity].
  replace (- x / 2) with (- (x / 2)) by lra. rewrite sin_neg. ring.
Qed.

(** X3.  Along a meridian, and along the equator, [haversine] is the arc
    length: the Earth radius 6371 times the difference of the two
    latitudes (of the two longitudes) in radians, for differences up to
    180 degrees.  One degree is 6371 pi / 180 km. *)
Theorem X3_haversine_arc_length (x1 x2 y : R) :
  Rabs (x2 - x1) <= 180 ->
  haversine x1 y x2 y = 6371 * radians (Rabs (x2 - x1))
  /\ haversine 0 x1 0 x2 = 6371 * radians (Rabs (x2 - x1)).
Proof.
  intro Hd. pose proof PI_RGT_0 as Hpi.
  pose proof (Rabs_pos (x2 - x1)) as Hp.
  set (h := radians (Rabs (x2 - x1)) / 2).
  assert (Hh : 0 <= h <= PI / 2).
  { unfold h, radians. split.
    - apply Rmult_le_pos; [|lra]. apply Rmult_le_pos; lra.
    - assert (Rabs (x2 - x1) * (PI / 180) <= 180 * (PI / 180))
        by (apply Rmult_le_compat_r; lra). lra. }
  assert (Hr : radians x2 - radians x1 = radians (x2 - x1))
    by (unfold radians; ring).
  assert (Ha : Rabs (radians (x2 - x1)) = radians (Rabs (x2 - x1))).
  { unfold radians. rewrite Rabs_mult. f_equal. apply Rabs_pos_eq. lra. }
  replace (6371 * radians (Rabs (x2 - x1))) with (6371 * (2 * h))
    by (unfold h; lra).
  split; unfold haversine; apply haversine_of_half_angle; try assumption.
  - replace (radians y - radians y) with 0 by lra.
    replace (0 / 2) with 0 by lra. rewrite sin_0, Hr, sin_sqr_abs, Ha.
    fold h. ring.
  - replace (radians 0 - radians 0) with 0 by lra.
    replace (0 / 2) with 0 by lra. rewrite sin_0, Hr, sin_sqr_abs, Ha.
    fold h. replace (radians 0) with 0 by (unfold radians; ring).
    rewrite cos_0. ring.
Qed.

Lemma X3_haversine_arc_length_witness :
  haversine 10 20 11 20 = 6371 * radians (Rabs (11 - 10))
  /\ haversine 0 10 0 11 = 6371 * radians (Rabs (11 - 10)).
Proof.
  apply X3_haversine_arc_length.
  replace (11 - 10) with 1 by lra. rewrite Rabs_R1. lra.
Defined.

(** X4.  Longitudes count modulo 360 degrees: adding a full turn to one of
    them does not change the distance. *)
Theorem X4_haversine_full_turn (lat1 lon1 lat2 lon2 : R) :
  haversine lat1 lon1 lat2 (lon2 + 360) = haversine lat1 lon1 lat2 lon2
  /\ haversine lat1 (lon1 + 360) lat2 lon2 = haversine lat1 lon1 lat2 lon2.
Proof.
  unfold haversine. split.
  - replace ((radians (lon2 + 360) - radians lon1) / 2)
      with ((radians lon2 - radians lon1) / 2 + PI)
      by (unfold radians; field).
    rewrite neg_sin.
    replace ((- sin ((radians lon2 - radians lon1) / 2)) ^ 2)
      with (sin ((radians lon2 - radians lon1) / 2) ^ 2) by ring.
    reflexivity.
  - replace ((radians lon2 - radians (lon1 + 360)) / 2)
      with (- (((radians lon1 - radians lon2) / 2) + PI))
      by (unfold radians; field).
    rewrite sin_neg, neg_sin.
    replace ((radians lon1 - radians lon2) / 2)
      with (- ((radians lon2 - radians lon1) / 2)) by lra.
    rewrite sin_neg.
    replace ((- - - sin ((radians lon2 - radians lon1) / 2)) ^ 2)
      with (sin ((radians lon2 - radians lon1) / 2) ^ 2) by ring.
    reflexivity.
Qed.

End HaversineFacts.

(** ** [parse_timestamp] on well-formed timestamps *)

Section TimestampRoundTrip.

Import Strptime.

Local Open Scope Z_scope.

Lemma first_Alt_l (r1 r2 : regex) (s : str) (h : hit) :
  first_hit r1 s h -> first_hit (Alt r1 r2) s h.
Proof. intros [t H]. unfold first_hit. simpl. rewrite H. simpl. eauto. Qed.

Ltac digit_enum k :=
  let D := fresh "D" in
  assert (D : k = 0 \/ k = 1 \/ k = 2 \/ k = 3 \/ k = 4 \/ k = 5 \/ k = 6
              \/ k = 7 \/ k = 8 \/ k = 9) by lia;
  destruct D as [D|[D|[D|[D|[D|[D|[D|[D|[D|D]]]]]]]]]; subst k.

(** What is known of a decimal digit [Fmt.digit k]. *)
Lemma digit_facts (k : Z) :
  0 <= k <= 9 ->
  is_digit (Fmt.digit k) = true
  /\ in_range "0" "9" (Fmt.digit k) = true
  /\ is_space (Fmt.digit k) = false
  /\ PyFloat.digit_val (Fmt.digit k) = k.
Proof. intro H. digit_enum k; repeat split; reflexivity. Qed.

Lemma zero_padded_2 (n : Z) :
  0 <= n < 100 ->
  exists k1 k2,
    0 <= k1 <= 9 /\ 0 <= k2 <= 9 /\ n = 10 * k1 + k2
    /\ zero_padded 2 n = [Fmt.digit k1; Fmt.digit k2].
Proof.
  intro H. exists (n / 10), (n mod 10).
  repeat split; try (Z.div_mod_to_equations; lia).
  simpl. rewrite (Z.mod_small (n / 10)) by (Z.div_mod_to_equations; lia).
  reflexivity.
Qed.

Ltac two_digits n H :=
  let k1 := fresh "k1" in
  let k2 := fresh "k2" in
  let H1 := fresh in
  let H2 := fresh in
  let E := fresh in
  destruct (@zero_padded_2 n) as (k1 & k2 & H1 & H2 & -> & E);
  [lia | rewrite E; clear E; digit_enum k1; digit_enum k2; try lia].

Lemma first_re_d (d : Z) (rest : str) :
  1 <= d <= 31 ->
  first_hit re_d (zero_padded 2 d ++ rest)
            (zero_padded 2 d, [zero_padded 2 d], rest)
  /\ py_int (zero_padded 2 d) = d.
Proof.
  intro H. two_digits d H; (split; [eexists; reflexivity | reflexivity]).
Qed.

Lemma first_re_H (h : Z) (rest : str) :
  0 <= h <= 23 ->
  first_hit re_H (zero_padded 2 h ++ rest)
            (zero_padded 2 h, [zero_padded 2 h], rest)
  /\ py_int (zero_padded 2 h) = h.
Proof.
  intro H. two_digits h H; (split; [eexists; reflexivity | reflexivity]).
Qed.

Lemma first_re_M (n : Z) (rest : str) :
  0 <= n <= 59 ->
  first_hit re_M (zero_padded 2 n ++ rest)
            (zero_padded 2 n, [zero_padded 2 n], rest)
  /\ py_int (zero_padded 2 n) = n.
Proof.
  intro H. two_digits n H; (split; [eexists; reflexivity | reflexivity]).
Qed.

Lemma first_re_S (n : Z) (rest : str) :
  0 <= n <= 59 ->
  first_hit re_S (zero_padded 2 n ++ rest)
            (zero_padded 2 n, [zero_padded 2 n], rest)
  /\ py_int (zero_padded 2 n) = n.
Proof.
  intro H. two_digits n H; (split; [eexists; reflexivity | reflexivity]).
Qed.

Lemma first_re_b (m : Z) (rest : str) :
  1 <= m <= 12 ->
  first_hit re_b (month_abbr m ++ rest) (month_abbr m, [month_abbr m], rest)
  /\ month_index (month_abbr m) = m.
Proof.
  intro H.
  assert (D : m = 1 \/ m = 2 \/ m = 3 \/ m = 4 \/ m = 5 \/ m = 6 \/ m = 7
              \/ m = 8 \/ m = 9 \/ m = 10 \/ m = 11 \/ m = 12) by lia.
  destruct D as [D|[D|[D|[D|[D|[D|[D|[D|[D|[D|[D|D]]]]]]]]]]]; subst m;
    (split; [eexists; reflexivity | reflexivity]).
Qed.

Lemma first_re_Y (y : Z) (rest : str) :
  0 <= y <= 9999 ->
  first_hit re_Y (zero_padded 4 y ++ rest)
            (zero_padded 4 y, [zero_padded 4 y], rest)
  /\ py_int (zero_padded 4 y) = y.
Proof.
  intro H. cbn [zero_padded app].
  set (k1 := y / 10 / 10 / 10 mod 10). set (k2 := y / 10 / 10 mod 10).
  set (k3 := y / 10 mod 10). set (k4 := y mod 10).
  assert (Hy : y = 1000 * k1 + 100 * k2 + 10 * k3 + k4)
    by (unfold k1, k2, k3, k4; Z.div_mod_to_equations; lia).
  destruct (@digit_facts k1) as (D1 & _ & S1 & V1);
    [unfold k1; Z.div_mod_to_equations; lia|].
  destruct (@digit_facts k2) as (D2 & _ & _ & V2);
    [unfold k2; Z.div_mod_to_equations; lia|].
  destruct (@digit_facts k3) as (D3 & _ & _ & V3);
    [unfold k3; Z.div_mod_to_equations; lia|].
  destruct (@digit_facts k4) as (D4 & _ & _ & V4);
    [unfold k4; Z.div_mod_to_equations; lia|].
  split.
  - unfold re_Y. apply first_Grp.
    apply (@first_Seq _ _ _ [_] [] _ [_; _; _] [] _ (@first_Cls _ _ _ D1)).
    apply (@first_Seq _ _ _ [_] [] _ [_; _] [] _ (@first_Cls _ _ _ D2)).
    apply (@first_Seq _ _ _ [_] [] _ [_] [] _ (@first_Cls _ _ _ D3)).
    apply (@first_Cls _ _ _ D4).
  - unfold py_int. rewrite S1. cbn [PyFloat.digits_val].
    rewrite V1, V2, V3, V4. lia.
Qed.

(** Three digits at the end of the string: [%f] takes them all. *)
Lemma first_re_f (ms : Z) :
  0 <= ms <= 999 ->
  first_hit re_f (zero_padded 3 ms) (zero_padded 3 ms, [zero_padded 3 ms], [])
  /\ fraction (zero_padded 3 ms) = ms * 1000.
Proof.
  intro H. cbn [zero_padded app].
  set (k1 := ms / 10 / 10 mod 10). set (k2 := ms / 10 mod 10).
  set (k3 := ms mod 10).
  assert (Hy : ms = 100 * k1 + 10 * k2 + k3)
    by (unfold k1, k2, k3; Z.div_mod_to_equations; lia).
  destruct (@digit_facts k1) as (_ & D1 & _ & V1);
    [unfold k1; Z.div_mod_to_equations; lia|].
  destruct (@digit_facts k2) as (_ & D2 & _ & V2);
    [unfold k2; Z.div_mod_to_equations; lia|].
  destruct (@digit_facts k3) as (_ & D3 & _ & V3);
    [unfold k3; Z.div_mod_to_equations; lia|].
  split.
  - unfold re_f. apply first_Grp.
    apply (@first_Seq _ _ _ [_] [] _ [_; _] [] _ (@first_Cls _ _ _ D1)).
    apply first_Alt_l.
    apply (@first_Seq _ _ _ [_] [] _ [_] [] _ (@first_Cls _ _ _ D2)).
    apply first_Alt_l.
    apply (@first_Seq _ _ _ [_] [] _ [] [] _ (@first_Cls _ _ _ D3)).
    exists []. reflexivity.
  - unfold fraction. cbn [length Nat.sub repeat app PyFloat.digits_val].
    rewrite V1, V2, V3. change (PyFloat.digit_val "0") with 0. lia.
Qed.

Lemma next_not_space_padded (w : nat) (n : Z) (rest : str) :
  next_not is_space (zero_padded (S w) n ++ rest).
Proof.
  revert n rest. induction w as [|w IH]; intros n rest.
  - simpl. apply digit_facts. pose proof (Z.mod_pos_bound n 10). lia.
  - change (zero_padded (S (S w)) n)
      with (zero_padded (S w) (n / 10) ++ [Fmt.digit (n mod 10)]).
    rewrite <- app_assoc. apply IH.
Qed.

Lemma first_blank (s : str) :
  next_not is_space s ->
  first_hit (Plus is_space) (" "%char :: s) ([" "%char], [], s).
Proof.
  intro H.
  exact (@first_Plus is_space [" "%char] s ltac:(discriminate) eq_refl H).
Qed.

Lemma days_in_month_le (y m : Z) : days_in_month y m <= 31.
Proof.
  unfold days_in_month.
  destruct ((m =? 2) && is_leap y)%bool; [lia|].
  destruct (Z.to_nat m) as [|[|[|[|[|[|[|[|[|[|[|[|[|[|n]]]]]]]]]]]]]];
    simpl; lia.
Qed.

Lemma valid_fields_ranges (dt : datetime) :
  valid_fields dt = true ->
  1 <= year dt <= 9999 /\ 1 <= month dt <= 12 /\ 1 <= day dt <= 31
  /\ 0 <= hour dt <= 23 /\ 0 <= minute dt <= 59 /\ 0 <= second dt <= 59
  /\ 0 <= microsecond dt <= 999999.
Proof.
  unfold valid_fields. intro H.
  repeat (apply andb_prop in H; destruct H as [H ?]).
  repeat match goal with
         | E : (_ <=? _) = true |- _ => apply Z.leb_le in E
         end.
  pose proof (days_in_month_le (year dt) (month dt)). lia.
Qed.

(** The pattern finds the seven fields of a well-formed timestamp. *)
Lemma timestamp_text_match (dt : datetime) :
  valid_fields dt = true ->
  exists w,
    first_hit format_re (timestamp_text dt)
              (w, [month_abbr (month dt); zero_padded 2 (day dt);
                   zero_padded 4 (year dt); zero_padded 2 (hour dt);
                   zero_padded 2 (minute dt); zero_padded 2 (second dt);
                   zero_padded 3 (microsecond dt / 1000)], []).
Proof.
  intro Hv. apply valid_fields_ranges in Hv.
  destruct Hv as (Hy & Hm & Hd & HH & HM & HS & Hf).
  assert (Hy' : 0 <= year dt <= 9999) by lia.
  unfold timestamp_text, format_re.
  cbn [s2l list_ascii_of_string app].
  eexists.
  eapply (@first_Seq _ _ _ _ [_] _ _ [_; _; _; _; _; _]);
    [apply first_re_b; assumption|].
  eapply (@first_Seq _ _ _ _ [] _ _ [_; _; _; _; _; _]);
    [apply first_blank, (next_not_space_padded 1)|].
  eapply (@first_Seq _ _ _ _ [_] _ _ [_; _; _; _; _]);
    [apply first_re_d; assumption|].
  eapply (@first_Seq _ _ _ _ [] _ _ [_; _; _; _; _]); [apply first_Chr|].
  eapply (@first_Seq _ _ _ _ [] _ _ [_; _; _; _; _]);
    [apply first_blank, (next_not_space_padded 3)|].
  eapply (@first_Seq _ _ _ _ [_] _ _ [_; _; _; _]);
    [apply first_re_Y; assumption|].
  eapply (@first_Seq _ _ _ _ [] _ _ [_; _; _; _]);
    [apply first_blank; reflexivity|].
  eapply (@first_Seq _ _ _ _ [] _ _ [_; _; _; _]); [apply first_Chr|].
  eapply (@first_Seq _ _ _ _ [] _ _ [_; _; _; _]);
    [apply first_blank, (next_not_space_padded 1)|].
  eapply (@first_Seq _ _ _ _ [_] _ _ [_; _; _]);
    [apply first_re_H; assumption|].
  eapply (@first_Seq _ _ _ _ [] _ _ [_; _; _]); [apply first_Chr|].
  eapply (@first_Seq _ _ _ _ [_] _ _ [_; _]);
    [apply first_re_M; assumption|].
  eapply (@first_Seq _ _ _ _ [] _ _ [_; _]); [apply first_Chr|].
  eapply (@first_Seq _ _ _ _ [_] _ _ [_]);
    [apply first_re_S; assumption|].
  eapply (@first_Seq _ _ _ _ [] _ _ [_]); [apply first_Chr|].
  apply first_re_f. Z.div_mod_to_equations. lia.
Qed.

Lemma strptime_timestamp_text (dt : datetime) :
  valid_fields dt = true -> microsecond dt mod 1000 = 0 ->
  strptime (timestamp_text dt) = Some dt.
Proof.
  intros Hv Hms.
  destruct (@timestamp_text_match dt Hv) as (w & t & Hw).
  pose proof (@valid_fields_ranges dt Hv)
    as (Hy & Hm & Hd & HH & HM & HS & Hf).
  unfold strptime, re_match. rewrite Hw. cbn [hd_error].
  rewrite (proj2 (@first_re_b _ [] Hm)), (proj2 (@first_re_d _ [] Hd)),
    (proj2 (@first_re_H _ [] HH)), (proj2 (@first_re_M _ [] HM)),
    (proj2 (@first_re_S _ [] HS)).
  rewrite (proj2 (@first_re_Y (year dt) [] ltac:(lia))).
  rewrite (proj2 (@first_re_f (microsecond dt / 1000)
                    ltac:(Z.div_mod_to_equations; lia))).
  replace (microsecond dt / 1000 * 1000) with (microsecond dt)
    by (Z.div_mod_to_equations; lia).
  destruct dt; cbn in *. now rewrite Hv.
Qed.

End TimestampRoundTrip.

(** X5 (parse_timestamp).  A valid date and time with whole milliseconds,
    written the way the input files write it (English month abbreviation,
    two-digit day, four-digit year, [@], time with three fraction digits),
    is parsed back to exactly that date and time. *)
Theorem X5_timestamp_round_trip (dt : datetime) :
  Strptime.valid_fields dt = true ->
  (microsecond dt mod 1000 = 0)%Z ->
  parse_timestamp (string_of_list_ascii (timestamp_text dt)) = Some dt.
Proof.
  intros Hv Hms. unfold parse_timestamp, s2l.
  rewrite list_ascii_of_string_of_list_ascii.
  now apply strptime_timestamp_text.
Qed.

Lemma X5_timestamp_round_trip_witness :
  parse_timestamp "Feb 29, 2024 @ 00:00:07.005"
  = Some (mk_datetime 2024 2 29 0 0 7 5000).
Proof.
  exact (@X5_timestamp_round_trip (mk_datetime 2024 2 29 0 0 7 5000)
           eq_refl eq_refl).
Defined.

(** ** [extract_coordinates]: only the text up to the parenthesis counts *)

Lemma s2l_append (s t : string) : s2l (s ++ t) = s2l s ++ s2l t.
Proof.
  unfold s2l. induction s as [|c s IH]; [reflexivity|].
  simpl. now rewrite IH.
Qed.

(** X15.  A position string that is accepted begins with the five
    letters POINT, in capitals, and whatever is appended to it is not
    looked at: the same coordinates are returned. *)
Theorem X15_trailing_text_ignored (position_str : string) (c : Q * Q) :
  extract_coordinates position_str = Some c ->
  (exists t, position_str = ("POINT" ++ t)%string)
  /\ forall more, extract_coordinates (position_str ++ more) = Some c.
Proof.
  unfold extract_coordinates. destruct c as [la lo]. intro H.
  apply extract_coordinates_iff in H.
  destruct H as (g1 & g2 & rest & Hs & H1 & H2).
  destruct Hs as (ws1 & ws2 & ws3 & ws4 & E & Hws).
  split.
  - exists (string_of_list_ascii
              (ws1 ++ s2l "(" ++ ws2 ++ g1 ++ ws3 ++ g2 ++ ws4
                   ++ s2l ")" ++ rest)).
    rewrite <- (string_of_list_ascii_of_string position_str).
    fold (s2l position_str). rewrite E. reflexivity.
  - intro more. rewrite s2l_append.
    apply extract_coordinates_iff.
    exists g1, g2, (rest ++ s2l more). split; [|auto].
    exists ws1, ws2, ws3, ws4. split; [|exact Hws].
    rewrite E. now rewrite <- !app_assoc.
Qed.

Lemma X15_trailing_text_ignored_witness :
  extract_coordinates "POINT (-122.4194 37.7749)"
  = Some (377749 # 10000, -1224194 # 10000)%Q
  /\ (exists t, "POINT (-122.4194 37.7749)"%string = ("POINT" ++ t)%string)
  /\ forall more,
      extract_coordinates ("POINT (-122.4194 37.7749)" ++ more)
      = Some (377749 # 10000, -1224194 # 10000)%Q.
Proof.
  split; [reflexivity|].
  exact (@X15_trailing_text_ignored "POINT (-122.4194 37.7749)" _ eq_refl).
Defined.

(** ** [process_data]: which rows come out, and when it raises *)

Lemma string_length_append (a b : string) :
  String.length (a ++ b) = (String.length a + String.length b)%nat.
Proof. induction a as [|c a IH]; simpl; [reflexivity | now rewrite IH]. Qed.

(** A text with a unit is never the sentinel. *)
Lemma with_unit_not_NA (v unit_ : string) :
  (3 < String.length v + String.length unit_)%nat ->
  (v ++ unit_)%string <> "N/A"%string.
Proof.
  intros H E. apply (f_equal String.length) in E.
  rewrite string_length_append in E. simpl in E. lia.
Qed.

Lemma length_string_of_list_ascii (l : list ascii) :
  String.length (string_of_list_ascii l) = length l.
Proof. induction l as [|c l IH]; simpl; [reflexivity | now rewrite IH]. Qed.

(** A number printed with two decimals has at least three characters. *)
Lemma format_2f_length (x : R) : (3 <= String.length (Fmt.format_2f x))%nat.
Proof.
  unfold Fmt.format_2f, Fmt.fixed2.
  rewrite length_string_of_list_ascii, !length_app. simpl. lia.
Qed.

Lemma Sorted_adjacent {A} (R : A -> A -> Prop) (l : list A) (j : nat)
      (a b : A) :
  Sorted R l -> nth_error l j = Some a -> nth_error l (S j) = Some b -> R a b.
Proof.
  intro H. revert j. induction H as [|x l Hs IH Hd]; intros j Ha Hb.
  - destruct j; discriminate.
  - destruct j as [|j]; simpl in *.
    + injection Ha as <-. destruct Hd as [|y l Hxy]; [discriminate|].
      simpl in Hb. now injection Hb as <-.
    + eapply IH; eauto.
Qed.

(** Two points with consecutive sequence numbers are neighbours in the
    sorted frame. *)
Lemma consecutive_points (df : list ParsedRow) (p q : TrajectoryPoint) :
  In p (trajectory df) -> In q (trajectory df) ->
  point_sequence p = (point_sequence q + 1)%Z ->
  exists j r r',
    nth_error df (S j) = Some r /\ nth_error df j = Some r'
    /\ p = point_at df (S j) r /\ q = point_at df j r'.
Proof.
  intros Hp Hq Hs.
  apply In_trajectory in Hp, Hq.
  destruct Hp as (i & r & Hi & ->), Hq as (j & r' & Hj & ->).
  unfold point_at, row_at in Hs. cbn [point_sequence sequence] in Hs.
  assert (i = S j) by lia. subst i. eauto 8.
Qed.

Section PipelineFacts.

Context (sorter : SortValues) (libm : Double.Libm).

(** X6.  A row of the input is in the returned trajectory exactly when
    both its timestamp and its position parse; a point carries the row it
    came from unchanged, together with what the two parsers returned for
    that row. *)
Theorem X6_rows_in_trajectory (df : list RawRow) (remove_duplicates : bool)
        (traj : list TrajectoryPoint) :
  process_data df remove_duplicates = Ok traj ->
  (forall r,
      In r df ->
      (exists p, In p traj /\ raw (point p) = r) <->
      parse_timestamp (timestamp r) <> None
      /\ extract_coordinates (position r) <> None)
  /\ (forall p,
         In p traj ->
         In (raw (point p)) df
         /\ parse_timestamp (timestamp (raw (point p)))
            = Some (parsed_timestamp (point p))
         /\ extract_coordinates (position (raw (point p)))
            = Some (coords (point p))).
Proof.
  intro H. apply process_data_Ok in H. destruct H as (_ & ->).
  assert (G : forall x, In x (map point
                                  (trajectory (sort_values (parsed_rows df))))
                        <-> In x (parsed_rows df)).
  { intro x. rewrite map_point_trajectory. split; apply Permutation_in;
      [symmetry|]; apply sort_values_perm. }
  split.
  - intros r Hr. split.
    + intros (p & Hp & <-).
      assert (Hin : In (point p) (parsed_rows df))
        by (apply G; now apply in_map).
      apply In_parsed_rows in Hin. destruct Hin as (_ & -> & ->).
      split; discriminate.
    + intros [Ht Hc].
      destruct (parse_timestamp (timestamp r)) as [t|] eqn:Et; [|congruence].
      destruct (extract_coordinates (position r)) as [c|] eqn:Ec; [|congruence].
      assert (Hin : In (mk_parsed r t c) (parsed_rows df))
        by (apply In_parsed_rows; simpl; auto).
      apply G, in_map_iff in Hin. destruct Hin as (p & E & Hp).
      exists p. split; [assumption|]. now rewrite E.
  - intros p Hp. apply In_parsed_rows, G. now apply in_map.
Qed.

End PipelineFacts.

Lemma X6_rows_in_trajectory_witness :
  process_data (sorter := numpy_quicksort) (libm := Double.glibc)
               sample_frame false
  = Ok sample_trajectory
  /\ (forall r,
         In r sample_frame ->
         (exists p, In p sample_trajectory /\ raw (point p) = r) <->
         parse_timestamp (timestamp r) <> None
         /\ extract_coordinates (position r) <> None).
Proof.
  split; [exact sample_trajectory_ok|].
  exact (proj1 (X6_rows_in_trajectory numpy_quicksort Double.glibc
            sample_frame false
            sample_trajectory_ok)).
Defined.


(** ** [process_data]: independence of the input order *)

Lemma parsed_rows_cons (r : RawRow) (df : list RawRow) :
  parsed_rows (r :: df) =
  match parse_timestamp (timestamp r), extract_coordinates (position r) with
  | Some t, Some c => [mk_parsed r t c]
  | _, _ => []
  end ++ parsed_rows df.
Proof.
  unfold parsed_rows, with_coords, with_timestamps. simpl.
  destruct (parse_timestamp (timestamp r)) as [t|]; simpl; [|reflexivity].
  destruct (extract_coordinates (position r)) as [c|]; reflexivity.
Qed.

Lemma parsed_rows_flat_map (df : list RawRow) :
  parsed_rows df =
  flat_map (fun r =>
              match parse_timestamp (timestamp r),
                    extract_coordinates (position r) with
              | Some t, Some c => [mk_parsed r t c]
              | _, _ => []
              end) df.
Proof.
  induction df as [|r df IH]; [reflexivity|].
  rewrite parsed_rows_cons, IH. reflexivity.
Qed.

Lemma parsed_rows_Permutation (df df' : list RawRow) :
  Permutation df df' -> Permutation (parsed_rows df) (parsed_rows df').
Proof.
  intro H. rewrite !parsed_rows_flat_map. now apply Permutation_flat_map.
Qed.

Lemma infer_dtype_datetime64 (df : list RawRow) :
  infer_dtype (map (fun r => parse_timestamp (timestamp r)) df) = datetime64
  <-> exists r, In r df /\ parse_timestamp (timestamp r) <> None.
Proof.
  unfold infer_dtype.
  destruct (existsb _ _) eqn:E.
  - split; [intros _|reflexivity].
    apply existsb_exists in E. destruct E as (v & Hv & Hs).
    apply in_map_iff in Hv. destruct Hv as (r & <- & Hr).
    exists r. split; [assumption|].
    destruct (parse_timestamp (timestamp r)); [discriminate | discriminate Hs].
  - split; [discriminate|]. intros (r & Hr & Hp). exfalso.
    assert (existsb (fun v : option datetime =>
                       match v with Some _ => true | None => false end)
                    (map (fun r => parse_timestamp (timestamp r)) df) = true).
    { apply existsb_exists. exists (parse_timestamp (timestamp r)).
      split; [apply in_map_iff; eauto|].
      now destruct (parse_timestamp (timestamp r)). }
    congruence.
Qed.


(** A list sorted by timestamp is determined by its elements when no two
    of them have the same timestamp. *)
Lemma sorted_unique (l1 l2 : list ParsedRow) :
  Sorted (fun a b => (ts a <= ts b)%Z) l1 ->
  Sorted (fun a b => (ts a <= ts b)%Z) l2 ->
  Permutation l1 l2 -> NoDup (map ts l1) -> l1 = l2.
Proof.
  intros S1 S2.
  assert (T : Relations_1.Transitive (fun a b : ParsedRow => (ts a <= ts b)%Z))
    by (intros a b c; lia).
  apply (Sorted_StronglySorted T) in S1, S2. clear T.
  revert l2 S2. induction S1 as [|a l1 S1 IH F1]; intros l2 S2 P N.
  - apply Permutation_nil in P. now subst.
  - destruct l2 as [|b l2];
      [apply Permutation_sym, Permutation_nil in P; discriminate|].
    inversion S2 as [|? ? S2' F2]; subst.
    inversion N as [|? ? Na N']; subst.
    assert (E : a = b).
    { assert (Ha : In a (b :: l2))
        by (apply Permutation_in with (l := a :: l1); [assumption | now left]).
      assert (Hb : In b (a :: l1))
        by (apply Permutation_in with (l := b :: l2);
            [now symmetry | now left]).
      destruct Ha as [Ha|Ha]; [now symmetry|].
      destruct Hb as [Hb|Hb]; [assumption|].
      rewrite Forall_forall in F1, F2.
      pose proof (F1 b Hb). pose proof (F2 a Ha).
      exfalso. apply Na. replace (ts a) with (ts b) by lia.
      now apply in_map. }
    subst b. f_equal. apply IH; try assumption.
    now apply Permutation_cons_inv in P.
Qed.

(** X7.  When the rows that survive parsing have pairwise different
    timestamps, the trajectory depends neither on the order of the rows in
    the input nor on the algorithm [sort_values] uses. *)
Theorem X7_order_independent (s1 s2 : SortValues) (libm : Double.Libm)
        (df df' : list RawRow)
        (remove_duplicates : bool) (traj : list TrajectoryPoint) :
  Permutation df df' ->
  NoDup (map ts (parsed_rows df)) ->
  process_data (sorter := s1) df remove_duplicates = Ok traj ->
  process_data (sorter := s2) df' remove_duplicates = Ok traj.
Proof.
  intros P N H.
  pose proof (parsed_rows_Permutation P) as PP.
  rewrite (process_data_cases (sorter := s1)) in H.
  rewrite (process_data_cases (sorter := s2)).
  destruct (parsed_rows df) as [|r rows] eqn:E.
  - apply Permutation_nil in PP. rewrite PP.
    destruct (infer_dtype (map _ df)) eqn:D; [|discriminate].
    apply infer_dtype_datetime64 in D. destruct D as (x & Hx & Hp).
    assert (D' : infer_dtype (map (fun r => parse_timestamp (timestamp r)) df')
                 = datetime64).
    { apply infer_dtype_datetime64. exists x. split; [|assumption].
      now apply Permutation_in with (l := df). }
    now rewrite D'.
  - destruct (parsed_rows df') as [|r' rows'] eqn:E';
      [apply Permutation_sym, Permutation_nil in PP; discriminate|].
    destruct remove_duplicates; [discriminate|].
    assert (S : sort_values (SortValues := s2) (r' :: rows')
                = sort_values (SortValues := s1) (r :: rows)).
    { symmetry. apply sorted_unique.
      - apply sort_values_sorted.
      - apply sort_values_sorted.
      - rewrite <- (sort_values_perm (SortValues := s1)).
        rewrite <- (sort_values_perm (SortValues := s2)). exact PP.
      - apply Permutation_NoDup with (l := map ts (r :: rows)); [|exact N].
        apply Permutation_map, sort_values_perm. }
    rewrite S. exact H.
Qed.

Lemma X7_order_independent_witness :
  process_data (sorter := merge_sorter) (libm := Double.glibc)
               [row_1359; row_bad_timestamp; row_1459] false
  = Ok (trajectory (sort_values (SortValues := numpy_quicksort)
                      (parsed_rows [row_1459; row_1359; row_bad_timestamp]))).
Proof.
  apply (@X7_order_independent numpy_quicksort merge_sorter Double.glibc
           [row_1459; row_1359; row_bad_timestamp]).
  - apply perm_trans with [row_1359; row_1459; row_bad_timestamp];
      [apply perm_swap | apply perm_skip, perm_swap].
  - vm_compute. repeat constructor; simpl; intuition discriminate.
  - apply process_data_total;
      [vm_compute; discriminate | vm_compute; reflexivity].
Defined.

(** ** [process_data]: elapsed time, coincident points, exceptions *)

Section ReturnedTrajectory.

Context (sorter : SortValues) (libm : Double.Libm).

Local Open Scope R_scope.

Lemma hours_between_sign (t prev : datetime) :
  (instant prev <= instant t)%Z ->
  0 <= hours_between t prev
  /\ (hours_between t prev <= 0 -> instant t = instant prev).
Proof.
  intro H. unfold hours_between.
  assert (Hd : 0 <= IZR (instant t - instant prev)) by (apply IZR_le; lia).
  split.
  - apply Rmult_le_pos; [apply Rmult_le_pos|]; try assumption;
      left; apply Rinv_0_lt_compat; lra.
  - intro Hle.
    assert (Hz : IZR (instant t - instant prev) <= 0).
    { destruct Hd as [Hd|Hd]; [|lra]. exfalso.
      assert (0 < IZR (instant t - instant prev) / 1000000 / 3600).
      { apply Rmult_lt_0_compat; [apply Rmult_lt_0_compat|];
          try assumption; apply Rinv_0_lt_compat; lra. }
      lra. }
    apply le_IZR in Hz. lia.
Qed.

(** X8.  In a returned trajectory time never runs backwards between a
    point and its predecessor, so the guard against non-positive elapsed
    time only ever fires on equal timestamps: a point after the first has
    the speed "N/A" exactly when its timestamp equals that of its
    predecessor. *)
Theorem X8_elapsed_time (df : list RawRow) (remove_duplicates : bool)
        (traj : list TrajectoryPoint) :
  process_data df remove_duplicates = Ok traj ->
  forall p q,
    In p traj -> In q traj ->
    point_sequence p = (point_sequence q + 1)%Z ->
    0 <= hours_between (parsed_timestamp (point p))
                       (parsed_timestamp (point q))
    /\ (avg_speed_kmh p = "N/A"%string <->
        instant (parsed_timestamp (point p))
        = instant (parsed_timestamp (point q))).
Proof.
  intro H. apply process_data_Ok in H. destruct H as (_ & ->).
  intros p q Hp Hq Hs.
  destruct (consecutive_points _ _ _ Hp Hq Hs)
    as (j & r & r' & Hr & Hr' & -> & ->).
  assert (Hle : (ts r' <= ts r)%Z)
    by (exact (Sorted_adjacent _ (sort_values_sorted (parsed_rows df))
                 Hr' Hr)).
  destruct (hours_between_sign (parsed_timestamp r) (parsed_timestamp r') Hle)
    as [H0 Heq].
  unfold point_at. cbn [point avg_speed_kmh].
  split; [exact H0|].
  unfold calculate_avg_speed, row_at. cbn [sequence time_diff_hours].
  destruct (Z.eqb_spec (Z.of_nat (S j) + 1) 1) as [E|_]; [lia|].
  rewrite Hr'. cbn [option_map].
  destruct (Rle_dec _ 0) as [Hh|Hh].
  - split; [intros _; now apply Heq | reflexivity].
  - split.
    + intro E. exfalso. revert E. apply with_unit_not_NA. simpl. lia.
    + intro E. exfalso. apply Hh. unfold hours_between. rewrite E, Z.sub_diag.
      lra.
Qed.

Lemma format_2f_zero : Fmt.format_2f 0 = "0.00"%string.
Proof.
  unfold Fmt.format_2f.
  replace (0 * 100) with (IZR 0) by lra.
  rewrite round_half_even_IZR.
  destruct (Rlt_dec 0 0); [lra | reflexivity].
Qed.

(** X9.  A point at the same coordinates as its predecessor has distance
    exactly 0, and when time has passed in between its speed is
    "0.00 km/h". *)
Theorem X9_same_place (df : list RawRow) (remove_duplicates : bool)
        (traj : list TrajectoryPoint) :
  process_data df remove_duplicates = Ok traj ->
  forall p q,
    In p traj -> In q traj ->
    point_sequence p = (point_sequence q + 1)%Z ->
    (lat (point p) == lat (point q))%Q ->
    (lon (point p) == lon (point q))%Q ->
    distance_km p = 0
    /\ ((instant (parsed_timestamp (point q))
         < instant (parsed_timestamp (point p)))%Z ->
        avg_speed_kmh p = "0.00 km/h"%string).
Proof.
  intro H. apply process_data_Ok in H. destruct H as (_ & ->).
  intros p q Hp Hq Hs Hlat Hlon.
  destruct (consecutive_points _ _ _ Hp Hq Hs)
    as (j & r & r' & Hr & Hr' & -> & ->).
  unfold point_at in *. cbn [point avg_speed_kmh distance_km] in *.
  assert (Hd : distance_value
                 (row_at (sort_values (parsed_rows df)) (S j) r) = 0).
  { unfold distance_value, row_at. cbn [prev_lat prev_lon base].
    rewrite Hr'. cbn [option_map].
    unfold lat, lon in Hlat, Hlon. destruct (coords r) as [la lo].
    simpl in Hlat, Hlon.
    rewrite (Qeq_eqR _ _ Hlat), (Qeq_eqR _ _ Hlon).
    apply haversine_same_point. }
  split; [exact Hd|].
  intro Hlt. rewrite Hd.
  unfold calculate_avg_speed, row_at. cbn [sequence time_diff_hours].
  destruct (Z.eqb_spec (Z.of_nat (S j) + 1) 1) as [E|_]; [lia|].
  rewrite Hr'. cbn [option_map].
  destruct (Rle_dec _ 0) as [Hh|Hh].
  - exfalso.
    assert (Hle : (instant (parsed_timestamp r')
                   <= instant (parsed_timestamp r))%Z) by lia.
    apply (hours_between_sign _ _ Hle) in Hh. lia.
  - unfold Rdiv at 1. rewrite Rmult_0_l, format_2f_zero. reflexivity.
Qed.







(** X11.  [main] saves a map with one numbered marker per row that
    survived parsing, numbered 1, 2, ..., N; it reports that there is no
    data exactly when some timestamp parses and no row survives; and it
    lets every exception of [process_data] through. *)
Theorem X11_main (df : list RawRow) (remove_duplicates : bool) :
  (forall drawn,
      main df remove_duplicates = Ok (MapSaved drawn) ->
      parsed_rows df <> []
      /\ drawn = map Z.of_nat (seq 1 (length (parsed_rows df))))
  /\ (main df remove_duplicates = Ok NoDataToPlot <->
      parsed_rows df = []
      /\ exists r, In r df /\ parse_timestamp (timestamp r) <> None)
  /\ (forall e,
         main df remove_duplicates = Raise e <->
         process_data df remove_duplicates = Raise e).
Proof.
  unfold main.
  pose proof (infer_dtype_datetime64 df) as Hdt.
  pose proof (process_data_cases df remove_duplicates) as Hc.
  destruct (process_data df remove_duplicates) as [traj|e0] eqn:P;
    cbn [bind].
  - pose proof (process_data_Ok _ _ P) as [_ ->].
    pose proof (sequence_column (sort_values (parsed_rows df))) as Hs.
    pose proof (sort_values_length (parsed_rows df)) as Hl.
    pose proof (length_trajectory (sort_values (parsed_rows df))) as Ht.
    destruct (parsed_rows df) as [|p rows] eqn:E.
    + assert (T : trajectory (sort_values []) = [])
        by (destruct (trajectory (sort_values [])); [reflexivity|];
            rewrite Hl in Ht; discriminate Ht).
      rewrite T. cbn [create_map].
      split; [discriminate|]. split; [|intro e; split; discriminate].
      split; [|reflexivity]. intros _. split; [reflexivity|].
      apply Hdt. destruct (infer_dtype _); [reflexivity | discriminate Hc].
    + destruct (trajectory (sort_values (p :: rows))) as [|x xs] eqn:T;
        [rewrite Hl in Ht; discriminate Ht|].
      cbn [create_map]. split; [|split].
      * intros drawn H. injection H as <-. split; [discriminate|].
        rewrite Hl in Hs. exact Hs.
      * split; [discriminate | intros [H _]; discriminate].
      * intro e. split; discriminate.
  - split; [discriminate|]. split.
    + split; [discriminate|]. intros [E H]. rewrite E in Hc.
      apply Hdt in H. rewrite H in Hc. discriminate Hc.
    + intro e. split; intro H; injection H as <-; reflexivity.
Qed.

End ReturnedTrajectory.

(** ** The map built by [create_map] *)

Lemma nth_error_last {A} (l : list A) (d : A) :
  l <> [] -> nth_error l (length l - 1) = Some (last l d).
Proof.
  intro H. rewrite (app_removelast_last d H) at 1 2.
  rewrite length_app. simpl.
  replace (length (removelast l) + 1 - 1)%nat with (length (removelast l))
    by lia.
  rewrite nth_error_app2 by lia. now rewrite Nat.sub_diag.
Qed.

Lemma StronglySorted_last {A} (R : A -> A -> Prop) (l : list A) (d : A) :
  (forall x, R x x) -> StronglySorted R l ->
  forall p, In p l -> R p (last l d).
Proof.
  intros Hr H. induction H as [|a l Hs IH Hf]; intros p Hp; [destruct Hp|].
  destruct l as [|b l].
  - destruct Hp as [<-|[]]. apply Hr.
  - change (last (a :: b :: l) d) with (last (b :: l) d).
    destruct Hp as [<-|Hp]; [|now apply IH].
    rewrite Forall_forall in Hf. apply Hf.
    clear. revert b. induction l as [|c l IH]; intro b; [now left|].
    right. apply IH.
Qed.

Lemma last_In {A} (l : list A) (d : A) : l <> [] -> In (last l d) l.
Proof.
  intro H. apply nth_error_In with (n := (length l - 1)%nat).
  now apply nth_error_last.
Qed.

Lemma last_sequence (t : list TrajectoryPoint) (d : TrajectoryPoint) :
  t <> [] ->
  map point_sequence t = map Z.of_nat (seq 1 (length t)) ->
  point_sequence (last t d) = Z.of_nat (length t).
Proof.
  intros Hne Hc.
  apply (f_equal (fun c => nth_error c (length t - 1))) in Hc.
  rewrite !nth_error_map, (nth_error_last d Hne), nth_error_seq in Hc.
  assert (Hlen : (0 < length t)%nat) by (destruct t; [congruence | simpl; lia]).
  destruct (Nat.ltb_spec (length t - 1) (length t)); [|lia].
  simpl in Hc. injection Hc as ->. f_equal. lia.
Qed.

Section MapFacts.

Context (sorter : SortValues) (libm : Double.Libm).

(** X12.  On the map of a returned trajectory the "Start" marker stands
    at the point with sequence 1, the "End" marker at the point with
    sequence N, and no point is earlier than the first or later than the
    second; the line goes through the points in sequence order and the
    numbered markers carry 1, 2, ..., N. *)
Theorem X12_start_and_end (df : list RawRow) (remove_duplicates : bool)
        (traj : list TrajectoryPoint) (m : FoliumMap) :
  process_data df remove_duplicates = Ok traj ->
  create_map_m traj = Some m ->
  (exists first last,
      In first traj /\ In last traj
      /\ point_sequence first = 1%Z
      /\ point_sequence last = Z.of_nat (length traj)
      /\ start_marker m = coords (point first)
      /\ end_marker m = coords (point last)
      /\ forall p, In p traj ->
                   (ts (point first) <= ts (point p) <= ts (point last))%Z)
  /\ polyline m = map (fun p => coords (point p)) traj
  /\ map marker_location (markers m) = polyline m
  /\ map marker_number (markers m) = map Z.of_nat (seq 1 (length traj)).
Proof.
  intros H Hm. apply process_data_Ok in H. destruct H as (_ & E).
  set (l := sort_values (parsed_rows df)) in *.
  assert (Hs : StronglySorted (fun p q => (ts (point p) <= ts (point q))%Z)
                              traj).
  { apply StronglySorted_map_inv
      with (f := point) (R := fun a b => (ts a <= ts b)%Z).
    rewrite E, map_point_trajectory. apply sort_values_strongly_sorted. }
  assert (Hc : map point_sequence traj = map Z.of_nat (seq 1 (length traj))).
  { rewrite E, sequence_column. now rewrite length_trajectory. }
  destruct traj as [|x xs]; [discriminate|].
  unfold create_map_m in Hm. injection Hm as <-.
  cbn [start_marker end_marker polyline markers].
  assert (Hne : x :: xs <> []) by discriminate.
  split; [|split; [reflexivity | split]].
  - exists x, (last (x :: xs) x).
    split; [now left|]. split; [now apply last_In|].
    split; [simpl in Hc; now injection Hc|].
    split; [now apply last_sequence|].
    split; [reflexivity|]. split; [reflexivity|].
    intros p Hp. split.
    + inversion Hs as [|? ? _ Hf]; subst.
      destruct Hp as [<-|Hp]; [lia|].
      rewrite Forall_forall in Hf. now apply Hf.
    + apply (StronglySorted_last
               (R := fun p q => (ts (point p) <= ts (point q))%Z));
        [intro; lia | assumption | assumption].
  - simpl. now rewrite map_map.
  - simpl. rewrite map_map. exact Hc.
Qed.

(** X14.  In the popups of a returned trajectory the speed text is always
    the value of the [avg_speed_kmh] column (the special case for sequence
    1 changes nothing, the column already holds "N/A" there), whereas the
    distance text is "N/A" exactly for the point with sequence 1, whose
    [distance_km] is 0. *)
Theorem X14_popup_texts (df : list RawRow) (remove_duplicates : bool)
        (traj : list TrajectoryPoint) :
  process_data df remove_duplicates = Ok traj ->
  forall p,
    In p traj ->
    speed_str p = avg_speed_kmh p
    /\ (distance_str p = "N/A"%string <-> point_sequence p = 1%Z)
    /\ (distance_str p = "N/A"%string -> distance_km p = 0%R).
Proof.
  intro H. apply process_data_Ok in H. destruct H as (_ & ->).
  intros p Hp. apply In_trajectory in Hp. destruct Hp as (i & r & Hi & ->).
  unfold speed_str, distance_str, point_at, row_at.
  cbn [point_sequence sequence avg_speed_kmh distance_km].
  destruct (Z.eqb_spec (Z.of_nat i + 1) 1) as [E|E].
  - assert (i = O) by lia. subst i. repeat split; reflexivity.
  - split; [reflexivity|]. split.
    + split; [|intro; contradiction].
      intro H. exfalso. revert H. apply with_unit_not_NA.
      match goal with
      | |- (3 < String.length (Fmt.format_2f ?x) + _)%nat =>
          pose proof (format_2f_length x)
      end.
      change (String.length " km") with 3%nat. lia.
    + intro H. exfalso. revert H. apply with_unit_not_NA.
      match goal with
      | |- (3 < String.length (Fmt.format_2f ?x) + _)%nat =>
          pose proof (format_2f_length x)
      end.
      change (String.length " km") with 3%nat. lia.
Qed.

End MapFacts.

(** ** The theorems at the sample frames *)

Lemma still_trajectory_ok :
  process_data (sorter := numpy_quicksort) (libm := Double.glibc)
               still_frame false
  = Ok still_trajectory.
Proof.
  apply process_data_total;
    [vm_compute; discriminate | vm_compute; reflexivity].
Qed.

Lemma X8_elapsed_time_witness :
  process_data (sorter := numpy_quicksort) (libm := Double.glibc)
               sample_frame false
  = Ok sample_trajectory
  /\ exists p q,
      In p sample_trajectory /\ In q sample_trajectory
      /\ point_sequence p = 3%Z /\ point_sequence q = 2%Z
      /\ (0 <= hours_between (parsed_timestamp (point p))
                             (parsed_timestamp (point q)))%R
      /\ (avg_speed_kmh p = "N/A"%string <->
          instant (parsed_timestamp (point p))
          = instant (parsed_timestamp (point q))).
Proof.
  split; [exact sample_trajectory_ok|].
  set (rows := sort_values (SortValues := numpy_quicksort)
                           (parsed_rows sample_frame)).
  destruct (nth_error rows 2) as [r|] eqn:Er;
    [|vm_compute in Er; discriminate].
  destruct (nth_error rows 1) as [r'|] eqn:Er';
    [|vm_compute in Er'; discriminate].
  pose proof (@trajectory_In rows 2 r Er) as Hp.
  pose proof (@trajectory_In rows 1 r' Er') as Hq.
  exists (point_at rows 2 r), (point_at rows 1 r').
  split; [exact Hp|]. split; [exact Hq|].
  split; [reflexivity|]. split; [reflexivity|].
  exact (@X8_elapsed_time numpy_quicksort Double.glibc
            sample_frame false sample_trajectory
            sample_trajectory_ok _ _ Hp Hq eq_refl).
Defined.

Lemma X9_same_place_witness :
  process_data (sorter := numpy_quicksort) (libm := Double.glibc)
               still_frame false
  = Ok still_trajectory
  /\ exists p,
      In p still_trajectory /\ point_sequence p = 2%Z
      /\ distance_km p = 0%R /\ avg_speed_kmh p = "0.00 km/h"%string.
Proof.
  split; [exact still_trajectory_ok|].
  set (rows := sort_values (SortValues := numpy_quicksort)
                           (parsed_rows still_frame)).
  destruct (nth_error rows 1) as [r|] eqn:Er;
    [|vm_compute in Er; discriminate].
  destruct (nth_error rows 0) as [r'|] eqn:Er';
    [|vm_compute in Er'; discriminate].
  pose proof (@trajectory_In rows 1 r Er) as Hp.
  pose proof (@trajectory_In rows 0 r' Er') as Hq.
  pose proof Er as Ec. vm_compute in Ec. injection Ec as Ec.
  pose proof Er' as Ec'. vm_compute in Ec'. injection Ec' as Ec'.
  assert (Hlat : (lat (point (point_at rows 1 r))
                  == lat (point (point_at rows 0 r')))%Q)
    by (cbn [point point_at]; rewrite <- Ec, <- Ec'; reflexivity).
  assert (Hlon : (lon (point (point_at rows 1 r))
                  == lon (point (point_at rows 0 r')))%Q)
    by (cbn [point point_at]; rewrite <- Ec, <- Ec'; reflexivity).
  destruct (@X9_same_place numpy_quicksort Double.glibc
            still_frame false still_trajectory
            still_trajectory_ok _ _ Hp Hq eq_refl Hlat Hlon) as [Hd Hs].
  exists (point_at rows 1 r).
  split; [exact Hp|]. split; [reflexivity|]. split; [exact Hd|].
  apply Hs. cbn [point point_at]. rewrite <- Ec, <- Ec'. reflexivity.
Defined.

Lemma create_map_m_None (df : list TrajectoryPoint) :
  create_map_m df = None -> df = [].
Proof. destruct df; [reflexivity | discriminate]. Qed.

(** The two descriptions of [create_map] agree. *)
Lemma create_map_m_outcome (df : list TrajectoryPoint) :
  create_map df
  = match create_map_m df with
    | None => NoDataToPlot
    | Some m => MapSaved (map marker_number (markers m))
    end.
Proof.
  destruct df as [|x xs]; [reflexivity|].
  unfold create_map, create_map_m. cbn [markers].
  now rewrite map_map.
Qed.

Lemma sample_map : exists m, create_map_m sample_trajectory = Some m.
Proof.
  destruct (create_map_m sample_trajectory) as [m|] eqn:E; [eauto|].
  apply create_map_m_None in E. apply (f_equal (@length _)) in E.
  unfold sample_trajectory in E. rewrite length_trajectory in E.
  vm_compute in E. discriminate.
Qed.


Lemma X12_start_and_end_witness :
  process_data (sorter := numpy_quicksort) (libm := Double.glibc)
               sample_frame false
  = Ok sample_trajectory
  /\ exists m,
      create_map_m sample_trajectory = Some m
      /\ (exists first last,
             In first sample_trajectory /\ In last sample_trajectory
             /\ point_sequence first = 1%Z
             /\ point_sequence last = Z.of_nat (length sample_trajectory)
             /\ start_marker m = coords (point first)
             /\ end_marker m = coords (point last)
             /\ forall p, In p sample_trajectory ->
                          (ts (point first) <= ts (point p)
                           <= ts (point last))%Z)
      /\ polyline m = map (fun p => coords (point p)) sample_trajectory
      /\ map marker_location (markers m) = polyline m
      /\ map marker_number (markers m)
         = map Z.of_nat (seq 1 (length sample_trajectory)).
Proof.
  split; [exact sample_trajectory_ok|].
  destruct sample_map as [m Hm]. exists m. split; [exact Hm|].
  exact (@X12_start_and_end numpy_quicksort Double.glibc
            sample_frame false sample_trajectory
            m sample_trajectory_ok Hm).
Defined.

Lemma X14_popup_texts_witness :
  process_data (sorter := numpy_quicksort) (libm := Double.glibc)
               sample_frame false
  = Ok sample_trajectory
  /\ exists p,
      In p sample_trajectory /\ point_sequence p = 2%Z
      /\ speed_str p = avg_speed_kmh p
      /\ (distance_str p = "N/A"%string <-> point_sequence p = 1%Z)
      /\ (distance_str p = "N/A"%string -> distance_km p = 0%R).
Proof.
  split; [exact sample_trajectory_ok|].
  set (rows := sort_values (SortValues := numpy_quicksort)
                           (parsed_rows sample_frame)).
  destruct (nth_error rows 1) as [r|] eqn:Er;
    [|vm_compute in Er; discriminate].
  pose proof (@trajectory_In rows 1 r Er) as Hp.
  exists (point_at rows 1 r).
  split; [exact Hp|]. split; [reflexivity|].
  exact (@X14_popup_texts numpy_quicksort Double.glibc
            sample_frame false sample_trajectory
            sample_trajectory_ok _ Hp).
Defined.
